(** * pymatgen.entries.compatibility: energy corrections for computed entries

    A shallow embedding of [pymatgen/entries/compatibility.py]: the four
    [Correction] classes ([PotcarCorrection], [GasCorrection],
    [AqueousCorrection], [UCorrection]) and the [Compatibility] aggregator
    with [get_corrections_dict], [process_entry] and [process_entries].

    Conventions of the embedding.
    - Python numbers (energies, amounts, rates, U values) are exact
      rationals [Qc]; [0], [0.0] and [-0.0] are all the number zero.
    - A Python exception is a value of [exn]; a call either returns
      ([Ok v]) or raises ([Raise e]).
    - Entries are mutable objects: a [Store] maps every reference [loc] to
      the entry object it denotes, and code that receives an entry receives
      its reference.  Correction objects are passed as values; module
      [Ref] writes the same methods on references to correction objects
      held in a heap, and section [ReadsOnly] proves that they are never
      assigned to and that the two forms agree. *)

From Stdlib Require Import Ascii String QArith Qcanon Sorted.
From stdpp Require Import numbers functions strings gmap fin_maps list.

Local Open Scope Qc_scope.
Local Open Scope string_scope.

(** ** Exceptions and results *)

Inductive exn : Type :=
  | CompatibilityError (msg : string)
  | ValueError (msg : string)
  | KeyError (key : string)
  | IndexError.

Inductive result (A : Type) : Type :=
  | Ok (a : A)
  | Raise (e : exn).
Arguments Ok {A} a.
Arguments Raise {A} e.

#[global] Instance exn_eq_dec : EqDecision exn.
Proof. solve_decision. Defined.
#[global] Instance result_eq_dec `{EqDecision A} : EqDecision (result A).
Proof. solve_decision. Defined.

#[global] Instance result_ret : MRet result := @Ok.
#[global] Instance result_bind : MBind result := λ A B f r,
  match r with
  | Ok a => f a
  | Raise e => Raise e
  end.

(** [d[k]] on a dict: [KeyError] when the key is absent. *)
Definition getitem {V} (d : gmap string V) (k : string) : result V :=
  match d !! k with
  | Some v => Ok v
  | None => Raise (KeyError k)
  end.

(** [d.get(k, dflt)] on a dict. *)
Definition dict_get {V} (d : gmap string V) (k : string) (dflt : V) : V :=
  default dflt (d !! k).

(** [str.split(sep)] for a one-character separator: every occurrence of
    [sep] ends a token, and tokens may be empty. *)
Fixpoint split (sep : ascii) (s : string) : list string :=
  match s with
  | EmptyString => [EmptyString]
  | String c s' =>
      if Ascii.eqb c sep then EmptyString :: split sep s'
      else match split sep s' with
           | [] => [String c EmptyString]
           | t :: ts => String c t :: ts
           end
  end.

(** [l[i]] on a list, for an index [i >= 0]. *)
Definition list_getitem {A} (l : list A) (i : nat) : result A :=
  match l !! i with
  | Some a => Ok a
  | None => Raise IndexError
  end.

(** [sorted(l, key=key)]: Python's sort is stable, so elements with equal
    keys keep their relative order. *)
Fixpoint insert_by {A} (key : A → Qc) (x : A) (l : list A) : list A :=
  match l with
  | [] => [x]
  | y :: l' => if decide (key x < key y) then x :: y :: l'
               else y :: insert_by key x l'
  end.

Definition sorted {A} (key : A → Qc) (l : list A) : list A :=
  fold_left (λ acc x, insert_by key x acc) l [].

(** [min(a, b)]: the first argument unless the second is strictly smaller. *)
Definition py_min (a b : Qc) : Qc := if decide (b < a) then b else a.

(** A decimal literal [n/d]. *)
Definition dec (n : Z) (d : positive) : Qc := Q2Qc (n # d).

(** ** Data model: the external objects the corrections read *)

(** Modelled from the spec: [pymatgen.core.periodic_table.Element] is not
    part of this module; an element is its symbol and its electronegativity
    [X], the two attributes read here. *)
Record Element : Type := { symbol : string; X : Qc }.

(** Modelled from the spec: [pymatgen.core.composition.Composition] is not
    part of this module.  It is a mapping element -> amount ([elmap], in
    iteration order) together with the derived attributes [reduced_formula]
    and [num_atoms] that the corrections read. *)
Record Composition : Type := {
  elmap : list (Element * Qc);
  reduced_formula : string;
  num_atoms : Qc
}.

(** [comp.elements] *)
Definition elements (comp : Composition) : list Element := (elmap comp).*1.

(** [comp[el]] and [comp["O"]]: the amount, [0] for an absent element. *)
Fixpoint amount_of (sym : string) (m : list (Element * Qc)) : Qc :=
  match m with
  | [] => 0
  | (el, a) :: m' => if decide (symbol el = sym) then a else amount_of sym m'
  end.
Definition comp_get (comp : Composition) (sym : string) : Qc :=
  amount_of sym (elmap comp).

(** [Element(sym) in comp] *)
Definition comp_contains (comp : Composition) (sym : string) : bool :=
  bool_decide (sym ∈ symbol <$> elements comp).

(** [len(comp)] *)
Definition comp_len (comp : Composition) : nat := length (elmap comp).

(** Modelled from the spec: [pymatgen.analysis.structure_analyzer.oxide_type]
    is not part of this module.  A structure is represented by what the
    bond-length classification with tolerance 1.05 returns for it: the type
    label and the bond count. *)
Record Structure : Type := { ox_type_of : string; nbonds_of : Qc }.
Definition oxide_type (s : Structure) : string * Qc :=
  (ox_type_of s, nbonds_of s).

(** [entry.parameters]: the keys the corrections look up; [None] is an
    absent key. *)
Record Parameters : Type := {
  potcar_symbols : option (list string);
  hubbards : option (gmap string Qc);
  run_type : option string
}.

(** A [ComputedEntry]; [structure] is [Some] for entries that have the
    attribute ([hasattr(entry, "structure")]). *)
Record Entry : Type := {
  composition : Composition;
  uncorrected_energy : Qc;
  correction : Qc;
  parameters : Parameters;
  data : gmap string string;
  structure : option Structure
}.

Definition set_correction (e : Entry) (c : Qc) : Entry :=
  {| composition := composition e;
     uncorrected_energy := uncorrected_energy e;
     correction := c;
     parameters := parameters e;
     data := data e;
     structure := structure e |}.

(** The input set ([MITVaspInputSet], [MPVaspInputSet]):
    [potcar_settings] maps an element to its POTCAR symbol and [LDAUU] is
    [incar_settings["LDAUU"]]. *)
Record InputSet : Type := {
  is_name : string;
  potcar_settings : gmap string string;
  LDAUU : option (gmap string (gmap string Qc))
}.

(** The parsed YAML configuration file. *)
Record Config : Type := {
  Name : string;
  Advanced_CompoundEnergies : gmap string Qc;
  Advanced_UCorrections : gmap string (gmap string Qc);
  OxideCorrections : gmap string Qc;
  AqueousCompoundEnergies : gmap string Qc
}.

(** ** The store of entry objects *)

Abbreviation loc := nat (only parsing).
Abbreviation Store := (loc → Entry) (only parsing).

(** Computations that read and update entry objects and may raise. *)
Definition M (A : Type) : Type := Store → result A * Store.

#[global] Instance M_ret : MRet M := λ A a σ, (Ok a, σ).
#[global] Instance M_bind : MBind M := λ A B f m σ,
  match m σ with
  | (Ok a, σ') => f a σ'
  | (Raise e, σ') => (Raise e, σ')
  end.

Definition lift {A} (r : result A) : M A := λ σ, (r, σ).
Definition load (l : loc) : M Entry := λ σ, (Ok (σ l), σ).
Definition store_correction (l : loc) (c : Qc) : M unit :=
  λ σ, (Ok tt, <[l := set_correction (σ l) c]> σ).

(** ** PotcarCorrection *)

Module PotcarCorrection.

Record t : Type := { valid_potcars : gset string; input_set : InputSet }.

Definition __init__ (input_set : InputSet) : t :=
  {| valid_potcars := map_img (potcar_settings input_set);
     input_set := input_set |}.

Definition missing_key_msg : string :=
  "PotcarCorrection can only be checked for entries with a " ++
  String (ascii_of_nat 34) "potcar_symbols" ++
  String (ascii_of_nat 34) " in entry.parameters".

(** The list comprehension [[sym.split(" ")[1] for sym in ...]]. *)
Definition second_tokens (syms : list string) : result (list string) :=
  mapM (λ sym, list_getitem (split " " sym) 1) syms.

Definition get_correction (self : t) (entry : Entry) : result Qc :=
  match potcar_symbols (parameters entry) with
  | None => Raise (ValueError missing_key_msg)
  | Some syms =>
      toks ← second_tokens syms;
      let psp_settings : gset string := list_to_set toks in
      if decide (psp_settings ⊆ valid_potcars self)
      then Ok 0
      else Raise (CompatibilityError "Incompatible potcar")
  end.

Definition __str__ (self : t) : string :=
  is_name (input_set self) ++ " Potcar Correction".

End PotcarCorrection.

(** ** UCorrection

    Placed before [GasCorrection], which reads the class attributes
    [common_peroxides], [common_superoxides] and [ozonides]. *)

Module UCorrection.

Definition common_peroxides : list string :=
  ["Li2O2"; "Na2O2"; "K2O2"; "Cs2O2"; "Rb2O2"; "BeO2";
   "MgO2"; "CaO2"; "SrO2"; "BaO2"].
Definition common_superoxides : list string :=
  ["LiO2"; "NaO2"; "KO2"; "RbO2"; "CsO2"].
Definition ozonides : list string := ["LiO3"; "NaO3"; "KO3"; "NaO5"].

Record t : Type := {
  input_set : InputSet;
  u_settings : gmap string (gmap string Qc);
  u_corrections : gmap string (gmap string Qc);
  name : string;
  compat_type : string
}.

Definition __init__ (c : Config) (input_set : InputSet)
    (compat_type : string) : result t :=
  if decide (compat_type ∈ ["GGA"; "Advanced"]) then
    tables ←
      (if decide (compat_type = "Advanced") then
         match LDAUU input_set with
         | Some u => Ok (u, Advanced_UCorrections c)
         | None => Raise (KeyError "LDAUU")
         end
       else Ok (∅, ∅));
    Ok {| input_set := input_set;
          u_settings := tables.1;
          u_corrections := tables.2;
          name := Name c;
          compat_type := compat_type |}
  else Raise (CompatibilityError ("Invalid compat_type " ++ compat_type)).

(** The loop [for el in comp.elements], started with the correction
    accumulated so far. *)
Fixpoint check_elements (calc_u usettings ucorr : gmap string Qc)
    (comp : Composition) (els : list Element) (corr : Qc) : result Qc :=
  match els with
  | [] => Ok corr
  | el :: els' =>
      let sym := symbol el in
      if decide (dict_get calc_u sym 0 ≠ dict_get usettings sym 0)
      then Raise (CompatibilityError ("Invalid U value on " ++ sym))
      else
        let corr' := match ucorr !! sym with
                     | Some rate => corr + rate * comp_get comp sym
                     | None => corr
                     end in
        check_elements calc_u usettings ucorr comp els' corr'
  end.

Definition get_correction (self : t) (entry : Entry) : result Qc :=
  if decide (default "GGA" (run_type (parameters entry)) = "HF")
  then Raise (CompatibilityError "Invalid run type")
  else
    let calc_u := default ∅ (hubbards (parameters entry)) in
    let comp := composition entry in
    let els := sorted X (filter (λ el, 0 < comp_get comp (symbol el))
                                (elements comp)) in
    match list.last els with
    | None => Raise IndexError
    | Some el_max =>
        let most_electroneg := symbol el_max in
        let ucorr := dict_get (u_corrections self) most_electroneg ∅ in
        let usettings := dict_get (u_settings self) most_electroneg ∅ in
        check_elements calc_u usettings ucorr comp (elements comp) 0
    end.

Definition __str__ (self : t) : string :=
  name self ++ " " ++ compat_type self ++ " Correction".

End UCorrection.

(** ** GasCorrection *)

Module GasCorrection.

Record t : Type := {
  cpd_energies : gmap string Qc;
  oxide_correction : gmap string Qc;
  name : string;
  correct_peroxide : bool
}.

Definition __init__ (c : Config) (correct_peroxide : bool) : t :=
  {| cpd_energies := Advanced_CompoundEnergies c;
     oxide_correction := OxideCorrections c;
     name := Name c;
     correct_peroxide := correct_peroxide |}.

(** [correction += self.oxide_correction[key] * amount] *)
Definition add_rate (self : t) (corr : Qc) (key : string) (amount : Qc)
    : result Qc :=
  rate ← getitem (oxide_correction self) key;
  Ok (corr + rate * amount).

Definition get_correction (self : t) (entry : Entry) : result Qc :=
  let comp := composition entry in
  let rform := reduced_formula (composition entry) in
  match cpd_energies self !! rform with
  | Some ref => Ok (ref * num_atoms comp - uncorrected_energy entry)
  | None =>
    let corr : Qc := 0 in
    if correct_peroxide self then
      if bool_decide (2 ≤ comp_len comp)%nat && comp_contains comp "O" then
        match data entry !! "oxide_type" with
        | Some ot =>
            corr ← (match oxide_correction self !! ot with
                    | Some ox_corr => Ok (corr + ox_corr * comp_get comp "O")
                    | None => Ok corr
                    end);
            if decide (ot = "hydroxide")
            then add_rate self corr "oxide" (comp_get comp "O")
            else Ok corr
        | None =>
          match structure entry with
          | Some s =>
              let '(ox_type, nbonds) := oxide_type s in
              match oxide_correction self !! ox_type with
              | Some rate => Ok (corr + rate * nbonds)
              | None =>
                  if decide (ox_type = "hydroxide")
                  then add_rate self corr "oxide" (comp_get comp "O")
                  else Ok corr
              end
          | None =>
              if decide (rform ∈ UCorrection.common_peroxides)
              then add_rate self corr "peroxide" (comp_get comp "O")
              else if decide (rform ∈ UCorrection.common_superoxides)
              then add_rate self corr "superoxide" (comp_get comp "O")
              else if decide (rform ∈ UCorrection.ozonides)
              then add_rate self corr "ozonide" (comp_get comp "O")
              else if comp_contains comp "O"
                      && bool_decide (1 < length (elements comp))%nat
              then add_rate self corr "oxide" (comp_get comp "O")
              else Ok corr
          end
        end
      else Ok corr
    else add_rate self corr "oxide" (comp_get comp "O")
  end.

Definition __str__ (self : t) : string := name self ++ " Gas Correction".

End GasCorrection.

(** ** AqueousCorrection *)

Module AqueousCorrection.

Record t : Type := { cpd_energies : gmap string Qc; name : string }.

Definition __init__ (c : Config) : t :=
  {| cpd_energies := AqueousCompoundEnergies c; name := Name c |}.

(** [0.5 * 2.46 * min(comp["H"]/2.0, comp["O"])] *)
Definition hydration_term (comp : Composition) : Qc :=
  dec 5 10 * dec 246 100 * py_min (comp_get comp "H" / 2) (comp_get comp "O").

Definition get_correction (self : t) (entry : Entry) : result Qc :=
  let comp := composition entry in
  let rform := reduced_formula comp in
  let cpdenergies := cpd_energies self in
  let corr : Qc := 0 in
  let corr :=
    match cpdenergies !! rform with
    | Some ref =>
        if decide (rform ∈ ["H2"; "H2O"])
        then ref * num_atoms comp - uncorrected_energy entry
             - correction entry
        else corr + ref * num_atoms comp
    | None => corr
    end in
  let corr :=
    if decide (rform = "H2O") then corr else corr + hydration_term comp in
  Ok corr.

Definition __str__ (self : t) : string :=
  name self ++ " Aqueous Correction".

End AqueousCorrection.

(** ** The Correction interface

    The abstract base class: [get_correction] is the one required method
    and [correct_entry] the default method built on it.  No [get_correction]
    of this module assigns to an attribute of the entry, so each is a
    function of the entry object as it is when the method is called
    (lemma [get_correction_reads] proves this of the methods written on
    references). *)

Class CorrectionClass (T : Type) : Type := {
  get_correction : T → Entry → result Qc;
  to_str : T → string
}.

#[global] Instance PotcarCorrection_class : CorrectionClass PotcarCorrection.t :=
  {| get_correction := PotcarCorrection.get_correction;
     to_str := PotcarCorrection.__str__ |}.
#[global] Instance GasCorrection_class : CorrectionClass GasCorrection.t :=
  {| get_correction := GasCorrection.get_correction;
     to_str := GasCorrection.__str__ |}.
#[global] Instance AqueousCorrection_class : CorrectionClass AqueousCorrection.t :=
  {| get_correction := AqueousCorrection.get_correction;
     to_str := AqueousCorrection.__str__ |}.
#[global] Instance UCorrection_class : CorrectionClass UCorrection.t :=
  {| get_correction := UCorrection.get_correction;
     to_str := UCorrection.__str__ |}.

(** [c.get_correction(entry)] on an entry reference. *)
Definition call_get_correction `{CorrectionClass T} (c : T) (entry : loc)
    : M Qc :=
  e ← load entry; lift (get_correction c e).

(** [Correction.correct_entry]:
    [entry.correction += self.get_correction(entry); return entry]. *)
Definition correct_entry `{CorrectionClass T} (self : T) (entry : loc)
    : M loc :=
  e ← load entry;
  val ← call_get_correction self entry;
  _ ← store_correction entry (correction e + val);
  mret entry.

(** The correction objects a scheme of this module is built from. *)
Inductive Correction : Type :=
  | Potcar (c : PotcarCorrection.t)
  | Gas (c : GasCorrection.t)
  | Aqueous (c : AqueousCorrection.t)
  | U (c : UCorrection.t).

#[global] Instance Correction_class : CorrectionClass Correction :=
  {| get_correction c :=
       match c with
       | Potcar c => get_correction c
       | Gas c => get_correction c
       | Aqueous c => get_correction c
       | U c => get_correction c
       end;
     to_str c :=
       match c with
       | Potcar c => to_str c
       | Gas c => to_str c
       | Aqueous c => to_str c
       | U c => to_str c
       end |}.

(** ** Compatibility *)

Module Compatibility.

Record t : Type := { corrections : list Correction }.

Definition __init__ (corrections : list Correction) : t :=
  {| corrections := corrections |}.

(** The loop of [get_corrections_dict], started with the dict [d] built
    so far. *)
Fixpoint corrections_loop (cs : list Correction) (entry : loc)
    (d : gmap string Qc) : M (gmap string Qc) :=
  match cs with
  | [] => mret d
  | c :: cs' =>
      val ← call_get_correction c entry;
      corrections_loop cs' entry
        (if decide (val ≠ 0) then <[to_str c := val]> d else d)
  end.

Definition get_corrections_dict (self : t) (entry : loc)
    : M (gmap string Qc) :=
  corrections_loop (corrections self) entry ∅.

(** [sum(corrections.values())] *)
Definition sum_values (d : gmap string Qc) : Qc :=
  map_fold (λ _ v acc, acc + v) 0 d.

Definition process_entry (self : t) (entry : loc) : M (option loc) :=
  λ σ,
    match get_corrections_dict self entry σ with
    | (Ok d, σ') =>
        (_ ← store_correction entry (sum_values d); mret (Some entry)) σ'
    | (Raise (CompatibilityError _), σ') => (Ok None, σ')
    | (Raise e, σ') => (Raise e, σ')
    end.

(** [filter(None, map(self.process_entry, entries))]: entry objects are
    truthy, [None] is dropped. *)
Definition process_entries (self : t) (entries : list loc) : M (list loc) :=
  rs ← mapM (process_entry self) entries;
  mret (omap id rs).

End Compatibility.

(** ** Named schemes

    The YAML files and the input sets are external; the schemes take the
    parsed configuration and the input set they are bound to. *)

Section Presets.

Variables (MPCompatibility_yaml MITCompatibility_yaml : Config).
Variables (MPVaspInputSet MITVaspInputSet : InputSet).

Definition standard_corrections (fp : Config) (i_s : InputSet)
    (compat_type : string) (correct_peroxide : bool)
    : result (list Correction) :=
  u ← UCorrection.__init__ fp i_s compat_type;
  Ok [Potcar (PotcarCorrection.__init__ i_s);
      Gas (GasCorrection.__init__ fp correct_peroxide);
      U u].

Definition MaterialsProjectCompatibility (compat_type : string)
    (correct_peroxide : bool) : result Compatibility.t :=
  cs ← standard_corrections MPCompatibility_yaml MPVaspInputSet
         compat_type correct_peroxide;
  Ok (Compatibility.__init__ cs).

Definition MITCompatibility (compat_type : string)
    (correct_peroxide : bool) : result Compatibility.t :=
  cs ← standard_corrections MITCompatibility_yaml MITVaspInputSet
         compat_type correct_peroxide;
  Ok (Compatibility.__init__ cs).

Definition MITAqueousCompatibility (compat_type : string)
    (correct_peroxide : bool) : result Compatibility.t :=
  cs ← standard_corrections MITCompatibility_yaml MITVaspInputSet
         compat_type correct_peroxide;
  Ok (Compatibility.__init__
        (cs ++ [Aqueous (AqueousCorrection.__init__ MITCompatibility_yaml)])).

Definition MaterialsProjectAqueousCompatibility (compat_type : string)
    (correct_peroxide : bool) : result Compatibility.t :=
  cs ← standard_corrections MPCompatibility_yaml MPVaspInputSet
         compat_type correct_peroxide;
  Ok (Compatibility.__init__
        (cs ++ [Aqueous (AqueousCorrection.__init__ MPCompatibility_yaml)])).

End Presets.

(** ** The corrections as objects

    Above, a correction is passed as a value and [get_correction] is handed
    the entry object it reads.  In the source both are objects: a method
    receives the references [self] and [entry] and reads attributes through
    them, and nothing in the language keeps it from assigning to one.  This
    module writes the same methods on references, as programs over a heap
    that holds the entry objects and the correction objects of each class;
    every [entry.attr] and [self.attr] of the source is one read of the
    heap.  That these programs leave the heap as it was, and return what the
    definitions above return on the objects denoted, is proved in section
    [ReadsOnly]. *)

Module Ref.

(** A reference to a correction object, with the class of the object. *)
Inductive cref : Type :=
  | PotcarRef (r : loc)
  | GasRef (r : loc)
  | AqueousRef (r : loc)
  | URef (r : loc).

Record Heap : Type := {
  entry_objs : loc → Entry;
  potcar_objs : loc → PotcarCorrection.t;
  gas_objs : loc → GasCorrection.t;
  aqueous_objs : loc → AqueousCorrection.t;
  u_objs : loc → UCorrection.t
}.

(** Programs that read and assign attributes of the objects and may
    raise. *)
Definition Prog (A : Type) : Type := Heap → result A * Heap.

#[global] Instance Prog_ret : MRet Prog := λ A a h, (Ok a, h).
#[global] Instance Prog_bind : MBind Prog := λ A B f m h,
  match m h with
  | (Ok a, h') => f a h'
  | (Raise e, h') => (Raise e, h')
  end.

Definition raise {A} (e : exn) : Prog A := λ h, (Raise e, h).
Definition lift {A} (r : result A) : Prog A := λ h, (r, h).

(** [entry.attr] and [self.attr] *)
Definition entry_attr {A} (attr : Entry → A) (entry : loc) : Prog A :=
  λ h, (Ok (attr (entry_objs h entry)), h).
Definition potcar_attr {A} (attr : PotcarCorrection.t → A) (self : loc)
    : Prog A :=
  λ h, (Ok (attr (potcar_objs h self)), h).
Definition gas_attr {A} (attr : GasCorrection.t → A) (self : loc) : Prog A :=
  λ h, (Ok (attr (gas_objs h self)), h).
Definition aqueous_attr {A} (attr : AqueousCorrection.t → A) (self : loc)
    : Prog A :=
  λ h, (Ok (attr (aqueous_objs h self)), h).
Definition u_attr {A} (attr : UCorrection.t → A) (self : loc) : Prog A :=
  λ h, (Ok (attr (u_objs h self)), h).

(** The heap [h] with [σ] for its entry objects. *)
Definition set_entries (h : Heap) (σ : Store) : Heap :=
  {| entry_objs := σ;
     potcar_objs := potcar_objs h;
     gas_objs := gas_objs h;
     aqueous_objs := aqueous_objs h;
     u_objs := u_objs h |}.

(** [entry.correction = c] *)
Definition assign_correction (entry : loc) (c : Qc) : Prog unit :=
  λ h, (Ok tt,
        set_entries h
          (<[entry := set_correction (entry_objs h entry) c]> (entry_objs h))).

(** [PotcarCorrection.get_correction] *)
Definition potcar_get_correction (self entry : loc) : Prog Qc :=
  params ← entry_attr parameters entry;
  match potcar_symbols params with
  | None => raise (ValueError PotcarCorrection.missing_key_msg)
  | Some syms =>
      toks ← lift (PotcarCorrection.second_tokens syms);
      let psp_settings : gset string := list_to_set toks in
      valid_potcars ← potcar_attr PotcarCorrection.valid_potcars self;
      if decide (psp_settings ⊆ valid_potcars)
      then mret 0
      else raise (CompatibilityError "Incompatible potcar")
  end.

(** [correction += self.oxide_correction[key] * amount] *)
Definition gas_add_rate (self : loc) (corr : Qc) (key : string) (amount : Qc)
    : Prog Qc :=
  oxide_correction ← gas_attr GasCorrection.oxide_correction self;
  rate ← lift (getitem oxide_correction key);
  mret (corr + rate * amount).

(** [GasCorrection.get_correction] *)
Definition gas_get_correction (self entry : loc) : Prog Qc :=
  comp ← entry_attr composition entry;
  comp' ← entry_attr composition entry;
  let rform := reduced_formula comp' in
  cpd_energies ← gas_attr GasCorrection.cpd_energies self;
  match cpd_energies !! rform with
  | Some ref =>
      energy ← entry_attr uncorrected_energy entry;
      mret (ref * num_atoms comp - energy)
  | None =>
    let corr : Qc := 0 in
    correct_peroxide ← gas_attr GasCorrection.correct_peroxide self;
    if (correct_peroxide : bool) then
      if bool_decide (2 ≤ comp_len comp)%nat && comp_contains comp "O" then
        entry_data ← entry_attr data entry;
        match entry_data !! "oxide_type" with
        | Some ot =>
            oxide_correction ← gas_attr GasCorrection.oxide_correction self;
            let corr := match oxide_correction !! ot with
                        | Some ox_corr => corr + ox_corr * comp_get comp "O"
                        | None => corr
                        end in
            if decide (ot = "hydroxide")
            then gas_add_rate self corr "oxide" (comp_get comp "O")
            else mret corr
        | None =>
          entry_structure ← entry_attr structure entry;
          match (entry_structure : option Structure) with
          | Some s =>
              let '(ox_type, nbonds) := oxide_type s in
              oxide_correction ← gas_attr GasCorrection.oxide_correction self;
              match oxide_correction !! ox_type with
              | Some rate => mret (corr + rate * nbonds)
              | None =>
                  if decide (ox_type = "hydroxide")
                  then gas_add_rate self corr "oxide" (comp_get comp "O")
                  else mret corr
              end
          | None =>
              if decide (rform ∈ UCorrection.common_peroxides)
              then gas_add_rate self corr "peroxide" (comp_get comp "O")
              else if decide (rform ∈ UCorrection.common_superoxides)
              then gas_add_rate self corr "superoxide" (comp_get comp "O")
              else if decide (rform ∈ UCorrection.ozonides)
              then gas_add_rate self corr "ozonide" (comp_get comp "O")
              else if comp_contains comp "O"
                      && bool_decide (1 < length (elements comp))%nat
              then gas_add_rate self corr "oxide" (comp_get comp "O")
              else mret corr
          end
        end
      else mret corr
    else gas_add_rate self corr "oxide" (comp_get comp "O")
  end.

(** [AqueousCorrection.get_correction] *)
Definition aqueous_get_correction (self entry : loc) : Prog Qc :=
  comp ← entry_attr composition entry;
  let rform := reduced_formula comp in
  cpdenergies ← aqueous_attr AqueousCorrection.cpd_energies self;
  let corr : Qc := 0 in
  corr ← match cpdenergies !! rform with
         | Some ref =>
             if decide (rform ∈ ["H2"; "H2O"])
             then
               energy ← entry_attr uncorrected_energy entry;
               old ← entry_attr correction entry;
               mret (ref * num_atoms comp - energy - old)
             else mret (corr + ref * num_atoms comp)
         | None => mret corr
         end;
  mret (if decide (rform = "H2O") then corr
        else corr + AqueousCorrection.hydration_term comp).

(** [UCorrection.get_correction]; the loop over the elements works on the
    local variables [calc_u], [usettings], [ucorr] and [comp] only. *)
Definition u_get_correction (self entry : loc) : Prog Qc :=
  params ← entry_attr parameters entry;
  if decide (default "GGA" (run_type params) = "HF")
  then raise (CompatibilityError "Invalid run type")
  else
    params ← entry_attr parameters entry;
    let calc_u := default ∅ (hubbards params) in
    comp ← entry_attr composition entry;
    let els := sorted X (filter (λ el, 0 < comp_get comp (symbol el))
                                (elements comp)) in
    match list.last els with
    | None => raise IndexError
    | Some el_max =>
        let most_electroneg := symbol el_max in
        u_corrections ← u_attr UCorrection.u_corrections self;
        let ucorr := dict_get u_corrections most_electroneg ∅ in
        u_settings ← u_attr UCorrection.u_settings self;
        let usettings := dict_get u_settings most_electroneg ∅ in
        lift (UCorrection.check_elements calc_u usettings ucorr comp
                (elements comp) 0)
    end.

(** [c.get_correction(entry)]: the class of the object selects the
    method. *)
Definition get_correction (c : cref) (entry : loc) : Prog Qc :=
  match c with
  | PotcarRef self => potcar_get_correction self entry
  | GasRef self => gas_get_correction self entry
  | AqueousRef self => aqueous_get_correction self entry
  | URef self => u_get_correction self entry
  end.

(** [str(c)] *)
Definition to_str (c : cref) : Prog string :=
  match c with
  | PotcarRef self =>
      input_set ← potcar_attr PotcarCorrection.input_set self;
      mret (is_name input_set ++ " Potcar Correction")
  | GasRef self =>
      name ← gas_attr GasCorrection.name self;
      mret (name ++ " Gas Correction")
  | AqueousRef self =>
      name ← aqueous_attr AqueousCorrection.name self;
      mret (name ++ " Aqueous Correction")
  | URef self =>
      name ← u_attr UCorrection.name self;
      compat_type ← u_attr UCorrection.compat_type self;
      mret (name ++ " " ++ compat_type ++ " Correction")
  end.

(** The loop of [Compatibility.get_corrections_dict]. *)
Fixpoint corrections_loop (cs : list cref) (entry : loc)
    (d : gmap string Qc) : Prog (gmap string Qc) :=
  match cs with
  | [] => mret d
  | c :: cs' =>
      val ← get_correction c entry;
      if decide (val ≠ 0)
      then key ← to_str c; corrections_loop cs' entry (<[key := val]> d)
      else corrections_loop cs' entry d
  end.

(** [Compatibility.get_corrections_dict], for the list [self.corrections]. *)
Definition get_corrections_dict (corrections : list cref) (entry : loc)
    : Prog (gmap string Qc) :=
  corrections_loop corrections entry ∅.

(** [Compatibility.process_entry] *)
Definition process_entry (corrections : list cref) (entry : loc)
    : Prog (option loc) :=
  λ h,
    match get_corrections_dict corrections entry h with
    | (Ok d, h') =>
        (_ ← assign_correction entry (Compatibility.sum_values d);
         mret (Some entry)) h'
    | (Raise (CompatibilityError _), h') => (Ok None, h')
    | (Raise e, h') => (Raise e, h')
    end.

(** The correction object a reference denotes. *)
Definition object_of (h : Heap) (c : cref) : Correction :=
  match c with
  | PotcarRef r => Potcar (potcar_objs h r)
  | GasRef r => Gas (gas_objs h r)
  | AqueousRef r => Aqueous (aqueous_objs h r)
  | URef r => U (u_objs h r)
  end.

End Ref.

(** ** Sample data

    A small configuration in the shape of [MPCompatibility.yaml], an input
    set, and a few entries; the concrete evaluations below run on them. *)

Module Sample.

Definition el_H : Element := {| symbol := "H"; X := dec 220 100 |}.
Definition el_O : Element := {| symbol := "O"; X := dec 344 100 |}.
Definition el_Fe : Element := {| symbol := "Fe"; X := dec 183 100 |}.
Definition el_Ca : Element := {| symbol := "Ca"; X := dec 100 100 |}.

Definition comp_H2 : Composition :=
  {| elmap := [(el_H, dec 2 1)];
     reduced_formula := "H2"; num_atoms := dec 2 1 |}.
Definition comp_Fe : Composition :=
  {| elmap := [(el_Fe, dec 1 1)];
     reduced_formula := "Fe"; num_atoms := dec 1 1 |}.
Definition comp_Fe2O3 : Composition :=
  {| elmap := [(el_Fe, dec 2 1); (el_O, dec 3 1)];
     reduced_formula := "Fe2O3"; num_atoms := dec 5 1 |}.
Definition comp_CaH2O2 : Composition :=
  {| elmap := [(el_Ca, dec 1 1); (el_H, dec 2 1); (el_O, dec 2 1)];
     reduced_formula := "CaH2O2"; num_atoms := dec 5 1 |}.
Definition comp_H2O : Composition :=
  {| elmap := [(el_H, dec 2 1); (el_O, dec 1 1)];
     reduced_formula := "H2O"; num_atoms := dec 3 1 |}.

Definition config : Config :=
  {| Name := "MP";
     Advanced_CompoundEnergies := {[ "H2" := dec (-325) 100 ]};
     Advanced_UCorrections :=
       {[ "O" := ({[ "Fe" := dec (-1723) 1000 ]} : gmap string Qc) ]};
     OxideCorrections :=
       <[ "oxide" := dec (-66) 100 ]> {[ "peroxide" := dec (-44) 100 ]};
     AqueousCompoundEnergies :=
       <[ "H2" := dec (-360) 100 ]> {[ "H2O" := dec (-497) 100 ]} |}.

(** The same file with a rate for [hydroxide] added to the oxide table. *)
Definition config_hydroxide : Config :=
  {| Name := "MP";
     Advanced_CompoundEnergies := Advanced_CompoundEnergies config;
     Advanced_UCorrections := Advanced_UCorrections config;
     OxideCorrections :=
       <[ "hydroxide" := dec (-20) 100 ]> (OxideCorrections config);
     AqueousCompoundEnergies := AqueousCompoundEnergies config |}.

(** The same file with an oxide table that has no [oxide] rate. *)
Definition config_no_oxide : Config :=
  {| Name := "MP";
     Advanced_CompoundEnergies := Advanced_CompoundEnergies config;
     Advanced_UCorrections := Advanced_UCorrections config;
     OxideCorrections := {[ "peroxide" := dec (-44) 100 ]};
     AqueousCompoundEnergies := AqueousCompoundEnergies config |}.

Definition input_set : InputSet :=
  {| is_name := "MP";
     potcar_settings :=
       <[ "Fe" := "Fe_pv" ]> (<[ "O" := "O" ]> (<[ "H" := "H" ]>
         {[ "Ca" := "Ca_sv" ]}));
     LDAUU := Some {[ "O" := ({[ "Fe" := dec 53 10 ]} : gmap string Qc) ]} |}.

Definition no_parameters : Parameters :=
  {| potcar_symbols := None; hubbards := None; run_type := None |}.

Definition mk_entry (comp : Composition) (energy : Qc) (p : Parameters)
    (d : gmap string string) : Entry :=
  {| composition := comp; uncorrected_energy := energy; correction := 0;
     parameters := p; data := d; structure := None |}.

(** A GGA run of H2. *)
Definition h2 : Entry :=
  mk_entry comp_H2 (dec (-675) 100)
    {| potcar_symbols := Some ["PAW_PBE H 15Jun2001"];
       hubbards := None; run_type := Some "GGA" |} ∅.

(** A GGA+U run of Fe2O3 with U = 5.3 on Fe. *)
Definition fe2o3_U : Entry :=
  mk_entry comp_Fe2O3 (dec (-3500) 100)
    {| potcar_symbols :=
         Some ["PAW_PBE Fe_pv 06Sep2000"; "PAW_PBE O 08Apr2002"];
       hubbards := Some {[ "Fe" := dec 53 10 ]};
       run_type := Some "GGA+U" |} ∅.

(** A GGA run of Fe2O3. *)
Definition fe2o3 : Entry :=
  mk_entry comp_Fe2O3 (dec (-3300) 100)
    {| potcar_symbols :=
         Some ["PAW_PBE Fe_pv 06Sep2000"; "PAW_PBE O 08Apr2002"];
       hubbards := None; run_type := Some "GGA" |} ∅.

(** A GGA run of Fe2O3 with the Fe_sv pseudopotential, which the input set
    does not list. *)
Definition fe2o3_sv : Entry :=
  mk_entry comp_Fe2O3 (dec (-3300) 100)
    {| potcar_symbols :=
         Some ["PAW_PBE Fe_sv 06Sep2000"; "PAW_PBE O 08Apr2002"];
       hubbards := None; run_type := Some "GGA" |} ∅.

(** A Hartree-Fock run of Fe2O3. *)
Definition fe2o3_HF : Entry :=
  mk_entry comp_Fe2O3 (dec (-3300) 100)
    {| potcar_symbols :=
         Some ["PAW_PBE Fe_pv 06Sep2000"; "PAW_PBE O 08Apr2002"];
       hubbards := None; run_type := Some "HF" |} ∅.

(** A Hartree-Fock run of Fe2O3 recorded without its POTCAR symbols. *)
Definition fe2o3_HF_no_potcar : Entry :=
  mk_entry comp_Fe2O3 (dec (-3300) 100)
    {| potcar_symbols := None; hubbards := None; run_type := Some "HF" |} ∅.

(** Ca(OH)2 with the precomputed classification [hydroxide]. *)
Definition caoh2 : Entry :=
  mk_entry comp_CaH2O2 (dec (-2500) 100)
    {| potcar_symbols := Some ["PAW_PBE Ca_sv 06Sep2000";
                               "PAW_PBE H 15Jun2001"; "PAW_PBE O 08Apr2002"];
       hubbards := None; run_type := Some "GGA" |}
    {[ "oxide_type" := "hydroxide" ]}.

(** Water and iron, without calculation parameters. *)
Definition h2o : Entry := mk_entry comp_H2O (dec (-1400) 100) no_parameters ∅.
Definition fe : Entry := mk_entry comp_Fe (dec (-800) 100) no_parameters ∅.

(** Fe2O3 whose second POTCAR symbol has no space, and whose first names
    a pseudopotential the input set does not list. *)
Definition fe2o3_bad_symbols : Entry :=
  mk_entry comp_Fe2O3 (dec (-3300) 100)
    {| potcar_symbols := Some ["PAW_PBE Fe_sv 06Sep2000"; "O"];
       hubbards := None; run_type := Some "GGA" |} ∅.

(** A store in which every reference denotes the entry [e]. *)
Definition store_of (e : Entry) : Store := λ _, e.

(** A store with H2 at reference 0 and the GGA run of Fe2O3 elsewhere. *)
Definition store_h2_fe2o3 : Store := <[0%nat := h2]> (store_of fe2o3).

(** The "Advanced" [UCorrection] of the sample configuration. *)
Definition u_advanced : UCorrection.t :=
  {| UCorrection.input_set := input_set;
     UCorrection.u_settings :=
       {[ "O" := ({[ "Fe" := dec 53 10 ]} : gmap string Qc) ]};
     UCorrection.u_corrections := Advanced_UCorrections config;
     UCorrection.name := "MP";
     UCorrection.compat_type := "Advanced" |}.

(** The corrections of the aqueous scheme, in its order. *)
Definition aqueous_scheme : Compatibility.t :=
  Compatibility.__init__
    [Potcar (PotcarCorrection.__init__ input_set);
     Gas (GasCorrection.__init__ config true);
     U u_advanced;
     Aqueous (AqueousCorrection.__init__ config)].

(** A scheme with two gas corrections loaded from the same file, one with
    and one without the peroxide correction; both are named
    "MP Gas Correction". *)
Definition two_gas_scheme : Compatibility.t :=
  Compatibility.__init__
    [Gas (GasCorrection.__init__ config true);
     Gas (GasCorrection.__init__ config false)].


(** Further sample data. *)

(** Fe2O3 with its POTCAR symbols in the other order. *)
Definition fe2o3_swapped : Entry :=
  mk_entry comp_Fe2O3 (dec (-3300) 100)
    {| potcar_symbols :=
         Some ["PAW_PBE O 08Apr2002"; "PAW_PBE Fe_pv 06Sep2000"];
       hubbards := None; run_type := Some "GGA" |} ∅.

Definition el_C : Element := {| symbol := "C"; X := dec 255 100 |}.
Definition el_Se : Element := {| symbol := "Se"; X := dec 255 100 |}.

(** Carbon diselenide: both elements have electronegativity 2.55. *)
Definition comp_CSe2 : Composition :=
  {| elmap := [(el_C, dec 1 1); (el_Se, dec 2 1)];
     reduced_formula := "CSe2"; num_atoms := dec 3 1 |}.

(** The empty composition. *)
Definition comp_empty : Composition :=
  {| elmap := []; reduced_formula := EmptyString; num_atoms := 0 |}.
Definition empty_entry : Entry := mk_entry comp_empty 0 no_parameters ∅.

Definition el_Li : Element := {| symbol := "Li"; X := dec 98 100 |}.
Definition comp_Li2O2 : Composition :=
  {| elmap := [(el_Li, dec 2 1); (el_O, dec 2 1)];
     reduced_formula := "Li2O2"; num_atoms := dec 4 1 |}.

(** Lithium peroxide, and Fe2O3 with a precomputed classification. *)
Definition li2o2 : Entry :=
  mk_entry comp_Li2O2 (dec (-1900) 100) no_parameters ∅.
Definition fe2o3_classified : Entry :=
  mk_entry comp_Fe2O3 (dec (-3300) 100) no_parameters
    {[ "oxide_type" := "oxide" ]}.

(** Structures as the bond-length classification sees them. *)
Definition peroxide_structure : Structure :=
  {| ox_type_of := "peroxide"; nbonds_of := dec 1 1 |}.
Definition hydroxide_structure : Structure :=
  {| ox_type_of := "hydroxide"; nbonds_of := dec 2 1 |}.
Definition unknown_structure : Structure :=
  {| ox_type_of := "None"; nbonds_of := 0 |}.

(** The corrections of the scheme without the aqueous correction. *)
Definition standard_scheme : Compatibility.t :=
  Compatibility.__init__
    [Potcar (PotcarCorrection.__init__ input_set);
     Gas (GasCorrection.__init__ config true);
     U u_advanced].

(** A heap with the entry objects of [σ] and, at every reference of each
    class, the correction object of the sample scheme. *)
Definition heap_of (σ : Store) : Ref.Heap :=
  {| Ref.entry_objs := σ;
     Ref.potcar_objs := λ _, PotcarCorrection.__init__ input_set;
     Ref.gas_objs := λ _, GasCorrection.__init__ config true;
     Ref.aqueous_objs := λ _, AqueousCorrection.__init__ config;
     Ref.u_objs := λ _, u_advanced |}.

(** The aqueous scheme as a list of references. *)
Definition aqueous_refs : list Ref.cref :=
  [Ref.PotcarRef 0%nat; Ref.GasRef 0%nat; Ref.URef 0%nat;
   Ref.AqueousRef 0%nat].

End Sample.

(** ** Predicates used in the statements *)

(** The string [s] contains the character [c]. *)
Fixpoint contains_char (c : ascii) (s : string) : bool :=
  match s with
  | EmptyString => false
  | String c' s' => Ascii.eqb c' c || contains_char c s'
  end.

(** The pseudopotential identifier a POTCAR symbol records: its second
    space-separated token, when it has one. *)
Definition potcar_identifier (sym : string) : option string :=
  split " " sym !! 1%nat.

(** The Hubbard U value an entry declares for an element: the value under
    [parameters["hubbards"]], zero when the element or the key is absent. *)
Definition declared_U (entry : Entry) (sym : string) : Qc :=
  dict_get (default ∅ (hubbards (parameters entry))) sym 0.

(** The entry's declared run type is Hartree-Fock. *)
Definition is_HF (entry : Entry) : Prop :=
  run_type (parameters entry) = Some "HF".

(** The dict the loop of [get_corrections_dict] builds, started from [d],
    as a function of the entry object [e] the reference denotes. *)
Fixpoint breakdown (cs : list Correction) (e : Entry) (d : gmap string Qc)
    : result (gmap string Qc) :=
  match cs with
  | [] => Ok d
  | c :: cs' =>
      val ← get_correction c e;
      breakdown cs' e (if decide (val ≠ 0) then <[to_str c := val]> d else d)
  end.

(** The exception a call raised, if any. *)
Definition raised {A} (r : result A) : option exn :=
  match r with
  | Ok _ => None
  | Raise e => Some e
  end.

(** The sum of a list of per-rule correction values. *)
Definition total (vals : list Qc) : Qc := foldr Qcplus 0 vals.

(** [process_entry], called alone on the store [σ], rejects the entry [l]:
    it returns [None]. *)
Definition rejected (self : Compatibility.t) (σ : Store) (l : loc) : Prop :=
  (Compatibility.process_entry self l σ).1 = Ok None.

#[global] Instance rejected_dec self σ l : Decision (rejected self σ l).
Proof. unfold rejected. apply _. Defined.

(** The element whose symbol selects the U tables of a composition: the last
    of the elements in positive amount, sorted by electronegativity. *)
Definition governing_element (comp : Composition) : option Element :=
  list.last (sorted X (filter (λ el, 0 < comp_get comp (symbol el))
                              (elements comp))).

(** One scan from the left for an element of largest key, keeping the later
    one of two with equal keys. *)
Definition pick_last_max {A} (key : A → Qc) (l : list A) : option A :=
  fold_left (λ best x, match best with
                       | None => Some x
                       | Some b => if decide (key x < key b) then Some b
                                   else Some x
                       end) l None.

(** The sum of [rate * amount] over the elements that have a rate. *)
Definition u_total (ucorr : gmap string Qc) (comp : Composition)
    (els : list Element) : Qc :=
  total ((λ el, match ucorr !! symbol el with
                | Some rate => rate * comp_get comp (symbol el)
                | None => 0
                end) <$> els).

(** The U value the tables of [self] expect on [sym] when [m] governs. *)
Definition expected_U (self : UCorrection.t) (m : Element) (sym : string)
    : Qc :=
  dict_get (dict_get (UCorrection.u_settings self) (symbol m) ∅) sym 0.

(** The entry with its structure attribute replaced. *)
Definition set_structure (e : Entry) (s : option Structure) : Entry :=
  {| composition := composition e;
     uncorrected_energy := uncorrected_energy e;
     correction := correction e;
     parameters := parameters e;
     data := data e;
     structure := s |}.

(** The correction is an [AqueousCorrection], the one class whose
    [get_correction] reads the correction field of the entry. *)
Definition is_aqueous (c : Correction) : bool :=
  match c with
  | Aqueous _ => true
  | _ => false
  end.

(** * Properties *)

Import Sample.

(** Closes a decidable goal about concrete data by evaluating its decision
    procedure. *)
Ltac by_evaluation := apply (bool_decide_unpack _); vm_compute; exact I.

(** ** PotcarCorrection *)

Section PotcarProperties.

Implicit Types (self : PotcarCorrection.t) (entry : Entry).
Implicit Types (sym tok : string) (syms toks : list string).

Lemma split_no_sep sep s : contains_char sep s = false → split sep s = [s].
Proof.
  induction s as [|c s IH]; simpl; [done|].
  intros [Hc Hs]%orb_false_iff. by rewrite Hc, (IH Hs).
Qed.

Lemma potcar_identifier_no_space sym :
  contains_char " " sym = false → potcar_identifier sym = None.
Proof. intros H. unfold potcar_identifier. by rewrite (split_no_sep _ _ H). Qed.

Lemma second_tokens_cons sym syms :
  PotcarCorrection.second_tokens (sym :: syms) =
  tok ← list_getitem (split " " sym) 1;
  toks ← PotcarCorrection.second_tokens syms;
  Ok (tok :: toks).
Proof. reflexivity. Qed.

Lemma second_tokens_ok syms toks :
  Forall2 (λ sym tok, potcar_identifier sym = Some tok) syms toks →
  PotcarCorrection.second_tokens syms = Ok toks.
Proof.
  induction 1 as [|sym tok syms toks Hh _ IH]; [done|].
  rewrite second_tokens_cons, IH. unfold list_getitem.
  unfold potcar_identifier in Hh. by rewrite Hh.
Qed.

Lemma second_tokens_index_error syms sym :
  sym ∈ syms → potcar_identifier sym = None →
  PotcarCorrection.second_tokens syms = Raise IndexError.
Proof.
  unfold potcar_identifier.
  induction 1 as [sym syms|sym sym' syms _ IH]; intros Hn;
    rewrite second_tokens_cons; unfold list_getitem.
  - by rewrite Hn.
  - rewrite (IH Hn). by destruct (split " " sym' !! 1%nat).
Qed.

(** A POTCAR symbol without a second token makes [get_correction] raise
    [IndexError], whatever the other symbols are. *)
Lemma potcar_symbol_without_identifier self entry syms sym :
  potcar_symbols (parameters entry) = Some syms →
  sym ∈ syms → potcar_identifier sym = None →
  PotcarCorrection.get_correction self entry = Raise IndexError.
Proof.
  intros Hs Hin Hn. unfold PotcarCorrection.get_correction.
  by rewrite Hs, (second_tokens_index_error _ _ Hin Hn).
Qed.

Lemma list_to_set_subseteq toks (V : gset string) :
  list_to_set toks ⊆ V ↔ Forall (λ tok, tok ∈ V) toks.
Proof.
  rewrite list.Forall_forall, elem_of_subseteq.
  split; intros H tok Htok; apply H; revert Htok;
    by rewrite elem_of_list_to_set.
Qed.

(** C5, as the code has it.  For an entry whose POTCAR symbols all have an
    identifier (a second space-separated token): [get_correction] returns
    0 when every identifier is in the expected set and raises
    [CompatibilityError] when some identifier is not.  For an entry
    without the "potcar_symbols" key it raises [ValueError], which is not
    a [CompatibilityError]. *)
Theorem potcar_get_correction_cases self entry :
  (potcar_symbols (parameters entry) = None →
     PotcarCorrection.get_correction self entry
     = Raise (ValueError PotcarCorrection.missing_key_msg)) ∧
  (∀ syms toks,
     potcar_symbols (parameters entry) = Some syms →
     Forall2 (λ sym tok, potcar_identifier sym = Some tok) syms toks →
     (Forall (λ tok, tok ∈ PotcarCorrection.valid_potcars self) toks →
        PotcarCorrection.get_correction self entry = Ok 0) ∧
     (Exists (λ tok, tok ∉ PotcarCorrection.valid_potcars self) toks →
        PotcarCorrection.get_correction self entry
        = Raise (CompatibilityError "Incompatible potcar"))).
Proof.
  unfold PotcarCorrection.get_correction. split.
  - intros H. rewrite H. reflexivity.
  - intros syms toks Hs Htoks. rewrite Hs. rewrite (second_tokens_ok _ _ Htoks). cbn.
    split; intros H.
    + rewrite decide_True; [done|]. by apply list_to_set_subseteq.
    + rewrite decide_False; [done|].
      rewrite list_to_set_subseteq. by apply Exists_not_Forall.
Qed.

End PotcarProperties.

(** Witness for C5: iron without parameters, Fe2O3 run with the expected
    POTCARs, and Fe2O3 run with a POTCAR the input set does not list. *)
Lemma potcar_get_correction_cases_witness :
  PotcarCorrection.get_correction (PotcarCorrection.__init__ input_set) fe
  = Raise (ValueError PotcarCorrection.missing_key_msg) ∧
  PotcarCorrection.get_correction (PotcarCorrection.__init__ input_set) fe2o3
  = Ok 0 ∧
  PotcarCorrection.get_correction (PotcarCorrection.__init__ input_set) fe2o3_sv
  = Raise (CompatibilityError "Incompatible potcar").
Proof.
  split; [|split].
  - apply (potcar_get_correction_cases _ fe). reflexivity.
  - apply (proj2 (potcar_get_correction_cases _ fe2o3)
             ["PAW_PBE Fe_pv 06Sep2000"; "PAW_PBE O 08Apr2002"] ["Fe_pv"; "O"]).
    + reflexivity.
    + repeat constructor.
    + repeat constructor; by_evaluation.
  - apply (proj2 (potcar_get_correction_cases _ fe2o3_sv)
             ["PAW_PBE Fe_sv 06Sep2000"; "PAW_PBE O 08Apr2002"] ["Fe_sv"; "O"]).
    + reflexivity.
    + repeat constructor.
    + apply Exists_cons_hd. by_evaluation.
Defined.

(** C5 fails as stated: the first symbol of this entry records the
    identifier Fe_sv, which the input set does not expect, and yet
    [get_correction] raises [IndexError] (on the second symbol) and not
    [CompatibilityError]. *)
Lemma potcar_unexpected_identifier_index_error :
  potcar_symbols (parameters fe2o3_bad_symbols)
  = Some ["PAW_PBE Fe_sv 06Sep2000"; "O"] ∧
  potcar_identifier "PAW_PBE Fe_sv 06Sep2000" = Some "Fe_sv" ∧
  ("Fe_sv" ∉ PotcarCorrection.valid_potcars
              (PotcarCorrection.__init__ input_set)) ∧
  PotcarCorrection.get_correction (PotcarCorrection.__init__ input_set)
    fe2o3_bad_symbols = Raise IndexError ∧
  ¬ (∃ msg, PotcarCorrection.get_correction (PotcarCorrection.__init__ input_set)
              fe2o3_bad_symbols = Raise (CompatibilityError msg)).
Proof.
  assert (Hrun : PotcarCorrection.get_correction
                   (PotcarCorrection.__init__ input_set) fe2o3_bad_symbols
                 = Raise IndexError).
  { apply potcar_symbol_without_identifier
      with (syms := ["PAW_PBE Fe_sv 06Sep2000"; "O"]) (sym := "O");
      [reflexivity| |reflexivity].
    set_solver. }
  split_and!.
  - reflexivity.
  - reflexivity.
  - by_evaluation.
  - exact Hrun.
  - intros [msg Hmsg]. rewrite Hrun in Hmsg. discriminate.
Qed.

(** C10.  Some entry carries a "potcar_symbols" list with a symbol that
    contains no space, and [get_correction] raises [IndexError] on it:
    neither [CompatibilityError] nor the [ValueError] of a missing key. *)
Theorem potcar_index_error_exists :
  ∃ (self : PotcarCorrection.t) (entry : Entry) (syms : list string)
    (sym : string),
    potcar_symbols (parameters entry) = Some syms ∧
    sym ∈ syms ∧
    contains_char " " sym = false ∧
    PotcarCorrection.get_correction self entry = Raise IndexError.
Proof.
  exists (PotcarCorrection.__init__ input_set), fe2o3_bad_symbols,
    ["PAW_PBE Fe_sv 06Sep2000"; "O"], "O".
  assert (Hin : "O" ∈ ["PAW_PBE Fe_sv 06Sep2000"; "O"]) by set_solver.
  split_and!; [reflexivity|exact Hin|reflexivity|].
  apply potcar_symbol_without_identifier
    with (syms := ["PAW_PBE Fe_sv 06Sep2000"; "O"]) (sym := "O");
    [reflexivity|exact Hin|].
  by apply potcar_identifier_no_space.
Qed.

(** ** UCorrection *)

Section UProperties.

Implicit Types (self : UCorrection.t) (entry : Entry) (comp : Composition).

Lemma insert_by_nonempty {A} (key : A → Qc) x l : insert_by key x l ≠ [].
Proof. destruct l; simpl; [done|]. by case_decide. Qed.

Lemma sorted_acc_nonempty {A} (key : A → Qc) l acc :
  acc ≠ [] → fold_left (λ acc x, insert_by key x acc) l acc ≠ [].
Proof.
  revert acc. induction l as [|x l IH]; simpl; [done|].
  intros acc _. apply IH, insert_by_nonempty.
Qed.

Lemma sorted_nonempty {A} (key : A → Qc) l : l ≠ [] → sorted key l ≠ [].
Proof.
  destruct l as [|x l]; [done|]. intros _. unfold sorted. simpl.
  by apply sorted_acc_nonempty.
Qed.

Lemma is_HF_run_type entry :
  is_HF entry ↔ default "GGA" (run_type (parameters entry)) = "HF".
Proof.
  unfold is_HF. destruct (run_type (parameters entry)); simpl;
    split; intros H; by simplify_eq.
Qed.

(** In "GGA" mode the constructor leaves both tables empty. *)
Lemma init_GGA c i_s self :
  UCorrection.__init__ c i_s "GGA" = Ok self →
  UCorrection.u_settings self = ∅ ∧ UCorrection.u_corrections self = ∅.
Proof.
  unfold UCorrection.__init__.
  rewrite decide_True by set_solver. rewrite decide_False by done.
  cbn. intros H. by simplify_eq.
Qed.

Lemma check_elements_empty_tables_ok calc_u comp els corr :
  Forall (λ el, dict_get calc_u (symbol el) 0 = 0) els →
  UCorrection.check_elements calc_u ∅ ∅ comp els corr = Ok corr.
Proof.
  induction 1 as [|el els Hel _ IH]; simpl; [done|].
  rewrite decide_False; [|by intros []].
  by rewrite lookup_empty.
Qed.

Lemma check_elements_empty_tables_raise calc_u comp els corr :
  Exists (λ el, dict_get calc_u (symbol el) 0 ≠ 0) els →
  ∃ sym, UCorrection.check_elements calc_u ∅ ∅ comp els corr
         = Raise (CompatibilityError ("Invalid U value on " ++ sym)).
Proof.
  induction 1 as [el els Hel|el els _ IH]; simpl.
  - exists (symbol el). by rewrite decide_True.
  - case_decide; [by eexists|]. by rewrite lookup_empty.
Qed.

(** C1, as the code has it.  With [self] constructed in "GGA" mode:
    an entry whose run type is HF raises [CompatibilityError]; an entry
    whose run type is not HF, with some element in positive amount,
    returns 0 when it declares a zero U value for every element of its
    composition, and raises [CompatibilityError] when it declares a
    nonzero U value for some element of its composition. *)
Theorem ucorrection_gga_mode c i_s self entry :
  UCorrection.__init__ c i_s "GGA" = Ok self →
  (is_HF entry →
     UCorrection.get_correction self entry
     = Raise (CompatibilityError "Invalid run type")) ∧
  (¬ is_HF entry →
   Exists (λ el, 0 < comp_get (composition entry) (symbol el))
          (elements (composition entry)) →
     (Forall (λ el, declared_U entry (symbol el) = 0)
             (elements (composition entry)) →
        UCorrection.get_correction self entry = Ok 0) ∧
     (Exists (λ el, declared_U entry (symbol el) ≠ 0)
             (elements (composition entry)) →
        ∃ sym, UCorrection.get_correction self entry
               = Raise (CompatibilityError ("Invalid U value on " ++ sym)))).
Proof.
  intros [Hs Hc]%init_GGA. unfold UCorrection.get_correction.
  rewrite Hs, Hc. split.
  - intros HF%is_HF_run_type. by rewrite decide_True.
  - intros HF Hpos. rewrite is_HF_run_type in HF.
    rewrite decide_False by done.
    destruct (list.last _) as [el_max|] eqn:Hlast.
    + unfold dict_get. rewrite lookup_empty. simpl. split.
      * apply check_elements_empty_tables_ok.
      * apply check_elements_empty_tables_raise.
    + exfalso. apply last_None in Hlast. revert Hlast.
      apply sorted_nonempty. intros Hnil.
      apply list.Exists_exists in Hpos as (el & Hel & Hgt).
      assert (el ∈ filter (λ el, 0 < comp_get (composition entry) (symbol el))
                          (elements (composition entry)))
        as Hin by (by apply list_elem_of_filter).
      rewrite Hnil in Hin. by apply not_elem_of_nil in Hin.
Qed.

End UProperties.

(** Witness for C1, on Fe2O3: a Hartree-Fock run, a GGA run, and a GGA+U run
    with U = 5.3 on Fe. *)
Lemma ucorrection_gga_mode_witness :
  ∃ self, UCorrection.__init__ config input_set "GGA" = Ok self ∧
    UCorrection.get_correction self fe2o3_HF
    = Raise (CompatibilityError "Invalid run type") ∧
    UCorrection.get_correction self fe2o3 = Ok 0 ∧
    ∃ sym, UCorrection.get_correction self fe2o3_U
           = Raise (CompatibilityError ("Invalid U value on " ++ sym)).
Proof.
  eexists. split; [reflexivity|]. split_and!.
  - apply (ucorrection_gga_mode config input_set _ fe2o3_HF); reflexivity.
  - apply (ucorrection_gga_mode config input_set _ fe2o3); [reflexivity|..].
    + discriminate.
    + apply Exists_cons_hd. reflexivity.
    + repeat constructor.
  - apply (ucorrection_gga_mode config input_set _ fe2o3_U); [reflexivity|..].
    + discriminate.
    + apply Exists_cons_hd. reflexivity.
    + apply Exists_cons_hd. by_evaluation.
Defined.

(** C1 fails as stated: in "GGA" mode, a run that is not Hartree-Fock and
    declares U = 5.3 on Fe raises [CompatibilityError] instead of
    returning 0. *)
Lemma ucorrection_gga_rejects_declared_U :
  ∃ self, UCorrection.__init__ config input_set "GGA" = Ok self ∧
    ¬ is_HF fe2o3_U ∧
    UCorrection.get_correction self fe2o3_U
    = Raise (CompatibilityError "Invalid U value on Fe").
Proof.
  eexists. split; [reflexivity|]. split; [discriminate|].
  unfold UCorrection.get_correction.
  rewrite decide_False by discriminate.
  vm_compute. reflexivity.
Qed.

(** ** GasCorrection *)

Section GasProperties.

Implicit Types (self : GasCorrection.t) (entry : Entry) (comp : Composition).

Lemma amount_of_absent sym (m : list (Element * Qc)) :
  sym ∉ symbol <$> m.*1 → amount_of sym m = 0.
Proof.
  induction m as [|[el a] m IH]; simpl; [done|].
  intros Hnot%not_elem_of_cons. destruct Hnot as [Hne Hrest].
  rewrite decide_False by done. by apply IH.
Qed.

Lemma comp_get_absent comp sym :
  comp_contains comp sym = false → comp_get comp sym = 0.
Proof.
  unfold comp_contains, comp_get, elements.
  intros H%bool_decide_eq_false. by apply amount_of_absent.
Qed.

(** C4, as the code has it.  The oxide table must have an "oxide" rate and
    no "hydroxide" rate of its own; then a precomputed classification
    "hydroxide" yields the "oxide" rate times the oxygen amount. *)
Theorem gas_precomputed_hydroxide self entry rate :
  GasCorrection.cpd_energies self
    !! reduced_formula (composition entry) = None →
  GasCorrection.correct_peroxide self = true →
  (2 ≤ comp_len (composition entry))%nat →
  comp_contains (composition entry) "O" = true →
  data entry !! "oxide_type" = Some "hydroxide" →
  GasCorrection.oxide_correction self !! "oxide" = Some rate →
  GasCorrection.oxide_correction self !! "hydroxide" = None →
  GasCorrection.get_correction self entry
  = Ok (rate * comp_get (composition entry) "O").
Proof.
  intros Hcpd Hper Hlen HO Hdata Hoxide Hhydro.
  unfold GasCorrection.get_correction, GasCorrection.add_rate, getitem.
  rewrite Hcpd, Hper, HO, Hdata, Hhydro, (bool_decide_eq_true_2 _ Hlen).
  cbn. rewrite decide_True by done. rewrite Hoxide. cbn.
  by rewrite Qcplus_0_l.
Qed.

(** C7, as the code has it.  Without oxygen and without a reference
    energy for the reduced formula the correction is 0: always when the
    peroxide correction is enabled, and, when it is disabled, provided the
    oxide table has an "oxide" rate. *)
Theorem gas_no_oxygen self entry :
  GasCorrection.cpd_energies self
    !! reduced_formula (composition entry) = None →
  comp_contains (composition entry) "O" = false →
  (GasCorrection.correct_peroxide self = true →
     GasCorrection.get_correction self entry = Ok 0) ∧
  (GasCorrection.correct_peroxide self = false →
   is_Some (GasCorrection.oxide_correction self !! "oxide") →
     GasCorrection.get_correction self entry = Ok 0).
Proof.
  intros Hcpd HO.
  unfold GasCorrection.get_correction, GasCorrection.add_rate, getitem.
  rewrite Hcpd, HO. split; intros Hper; rewrite Hper.
  - by rewrite andb_false_r.
  - intros [rate Hrate]. rewrite Hrate. cbn.
    by rewrite (comp_get_absent _ _ HO), Qcmult_0_r, Qcplus_0_l.
Qed.

End GasProperties.

(** Witness for C4: Ca(OH)2 classified as hydroxide, with the sample
    configuration. *)
Lemma gas_precomputed_hydroxide_witness :
  GasCorrection.get_correction (GasCorrection.__init__ config true) caoh2
  = Ok (dec (-66) 100 * comp_get comp_CaH2O2 "O").
Proof.
  apply (gas_precomputed_hydroxide _ caoh2); try reflexivity.
  cbn. lia.
Defined.

(** C4 fails as stated, for a configuration table that has a "hydroxide"
    rate (-0.20) next to the "oxide" rate (-0.66): the correction of
    Ca(OH)2, with two oxygen atoms, is -1.72 and not -1.32. *)
Lemma gas_hydroxide_rate_counted_twice :
  let self := GasCorrection.__init__ config_hydroxide true in
  GasCorrection.cpd_energies self !! reduced_formula (composition caoh2) = None ∧
  comp_contains (composition caoh2) "O" = true ∧
  (2 ≤ comp_len (composition caoh2))%nat ∧
  data caoh2 !! "oxide_type" = Some "hydroxide" ∧
  GasCorrection.oxide_correction self !! "oxide" = Some (dec (-66) 100) ∧
  GasCorrection.get_correction self caoh2 = Ok (dec (-172) 100) ∧
  dec (-172) 100 ≠ dec (-66) 100 * comp_get (composition caoh2) "O".
Proof.
  cbv zeta. split_and!; try reflexivity.
  - cbn. lia.
  - by_evaluation.
  - by_evaluation.
Qed.

(** Witness for C7: elemental iron, with the peroxide correction enabled
    and disabled. *)
Lemma gas_no_oxygen_witness :
  GasCorrection.get_correction (GasCorrection.__init__ config true) fe = Ok 0 ∧
  GasCorrection.get_correction (GasCorrection.__init__ config false) fe = Ok 0.
Proof.
  split.
  - apply (proj1 (gas_no_oxygen (GasCorrection.__init__ config true) fe
                    eq_refl eq_refl)).
    reflexivity.
  - apply (proj2 (gas_no_oxygen (GasCorrection.__init__ config false) fe
                    eq_refl eq_refl)); [reflexivity|].
    exists (dec (-66) 100). reflexivity.
Defined.

(** C7 fails as stated: with the peroxide correction disabled and an oxide
    table without an "oxide" rate, the correction of elemental iron is not
    0; the table lookup raises [KeyError]. *)
Lemma gas_no_oxygen_disabled_key_error :
  let self := GasCorrection.__init__ config_no_oxide false in
  GasCorrection.cpd_energies self !! reduced_formula (composition fe) = None ∧
  comp_contains (composition fe) "O" = false ∧
  GasCorrection.correct_peroxide self = false ∧
  GasCorrection.get_correction self fe = Raise (KeyError "oxide").
Proof. cbv zeta. split_and!; reflexivity. Qed.

(** ** AqueousCorrection *)

Section AqueousProperties.

Implicit Types (self : AqueousCorrection.t) (entry : Entry).

(** C8.  For water the hydration term is not added: the correction is the
    reference part alone.  For every other reduced formula the correction
    is the reference part plus [0.5 * 2.46 * min(H / 2, O)]. *)
Theorem aqueous_hydration_term self entry :
  let comp := composition entry in
  let rform := reduced_formula comp in
  (rform = "H2O" →
     AqueousCorrection.get_correction self entry
     = Ok (match AqueousCorrection.cpd_energies self !! "H2O" with
           | Some ref =>
               ref * num_atoms comp - uncorrected_energy entry
               - correction entry
           | None => 0
           end)) ∧
  (rform ≠ "H2O" →
     AqueousCorrection.get_correction self entry
     = Ok (match AqueousCorrection.cpd_energies self !! rform with
           | Some ref =>
               if decide (rform = "H2")
               then ref * num_atoms comp - uncorrected_energy entry
                    - correction entry
               else ref * num_atoms comp
           | None => 0
           end
           + dec 5 10 * dec 246 100
             * py_min (comp_get comp "H" / 2) (comp_get comp "O"))).
Proof.
  cbv zeta. unfold AqueousCorrection.get_correction. split; intros Hr.
  - rewrite Hr. rewrite (decide_True (P := "H2O" = "H2O")) by done.
    destruct (AqueousCorrection.cpd_energies self !! _) as [ref|]; [|done].
    by rewrite decide_True by set_solver.
  - rewrite (decide_False (P := _ = "H2O")) by done.
    unfold AqueousCorrection.hydration_term.
    destruct (AqueousCorrection.cpd_energies self !! _) as [ref|]; [|done].
    destruct (decide (reduced_formula (composition entry) = "H2")) as [H2|H2].
    + rewrite decide_True; [done|]. rewrite H2. set_solver.
    + rewrite decide_False; [by rewrite Qcplus_0_l|].
      rewrite !not_elem_of_cons. split_and!; [done..|apply not_elem_of_nil].
Qed.

End AqueousProperties.

(** Witness for C8: water and Ca(OH)2. *)
Lemma aqueous_hydration_term_witness :
  AqueousCorrection.get_correction (AqueousCorrection.__init__ config) h2o
  = Ok (dec (-497) 100 * dec 3 1 - dec (-1400) 100 - 0) ∧
  AqueousCorrection.get_correction (AqueousCorrection.__init__ config) caoh2
  = Ok (0 + dec 5 10 * dec 246 100 * py_min (dec 2 1 / 2) (dec 2 1)).
Proof.
  split.
  - apply (aqueous_hydration_term (AqueousCorrection.__init__ config) h2o).
    reflexivity.
  - apply (aqueous_hydration_term (AqueousCorrection.__init__ config) caoh2).
    discriminate.
Defined.

(** ** Compatibility: the per-rule breakdown *)

Section BreakdownProperties.

Implicit Types (self : Compatibility.t) (cs : list Correction).
Implicit Types (d : gmap string Qc) (e : Entry).

(** The loop only reads the entry object: it returns the store it was
    given, and its result is [breakdown] on the object denoted. *)
Lemma corrections_loop_cons c cs (l : loc) d (σ : Store) :
  Compatibility.corrections_loop (c :: cs) l d σ
  = match get_correction c (σ l) with
    | Ok val =>
        Compatibility.corrections_loop cs l
          (if decide (val ≠ 0) then <[to_str c := val]> d else d) σ
    | Raise err => (Raise err, σ)
    end.
Proof.
  simpl. unfold mbind, M_bind, call_get_correction, load, lift.
  by destruct (get_correction c (σ l)).
Qed.

Lemma aqueous_scheme_is_preset :
  MaterialsProjectAqueousCompatibility config input_set "Advanced" true
  = Ok aqueous_scheme.
Proof. reflexivity. Qed.

Lemma breakdown_cons c cs e d :
  breakdown (c :: cs) e d
  = match get_correction c e with
    | Ok val =>
        breakdown cs e (if decide (val ≠ 0) then <[to_str c := val]> d else d)
    | Raise err => Raise err
    end.
Proof. reflexivity. Qed.

Lemma corrections_loop_breakdown cs (l : loc) d (σ : Store) :
  Compatibility.corrections_loop cs l d σ = (breakdown cs (σ l) d, σ).
Proof.
  revert d. induction cs as [|c cs IH]; intros d; [done|].
  rewrite corrections_loop_cons, breakdown_cons.
  destruct (get_correction c (σ l)) as [val|err]; [apply IH|done].
Qed.

Lemma get_corrections_dict_breakdown self (l : loc) (σ : Store) :
  Compatibility.get_corrections_dict self l σ
  = (breakdown (Compatibility.corrections self) (σ l) ∅, σ).
Proof. apply corrections_loop_breakdown. Qed.

Lemma sum_values_empty : Compatibility.sum_values ∅ = 0.
Proof. apply map_fold_empty. Qed.

Lemma sum_values_insert d k v :
  d !! k = None →
  Compatibility.sum_values (<[k := v]> d) = Compatibility.sum_values d + v.
Proof.
  intros Hk. unfold Compatibility.sum_values.
  rewrite map_fold_insert_L; [done| |done].
  intros. ring.
Qed.

(** With pairwise distinct names, none of them a key of [d] yet, the
    values of the final dict add up to those of [d] plus every rule's
    value; a zero value is not stored and adds nothing. *)
Lemma breakdown_sum cs e vals d :
  Forall2 (λ c v, get_correction c e = Ok v) cs vals →
  NoDup (to_str <$> cs) →
  (∀ c, c ∈ cs → d !! to_str c = None) →
  ∃ d', breakdown cs e d = Ok d' ∧
        Compatibility.sum_values d'
        = Compatibility.sum_values d + total vals.
Proof.
  intros Hvals. revert d.
  induction Hvals as [|c v cs vals Hc _ IH]; intros d Hnd Hfresh.
  { exists d. split; [done|]. change (total []) with 0. ring. }
  change (total (v :: vals)) with (v + total vals).
  rewrite fmap_cons in Hnd. apply NoDup_cons in Hnd as [Hc_new Hnd].
  rewrite breakdown_cons, Hc.
  destruct (decide (v ≠ 0)) as [Hv|Hv].
  - destruct (IH (<[to_str c := v]> d) Hnd) as (d' & Hd' & Hsum).
    { intros c' Hc'. rewrite lookup_insert_ne.
      - apply Hfresh. by right.
      - intros Heq. apply Hc_new. rewrite Heq.
        by apply list_elem_of_fmap_2. }
    exists d'. split; [done|]. rewrite Hsum, sum_values_insert.
    + ring.
    + apply Hfresh. by left.
  - destruct (IH d Hnd) as (d' & Hd' & Hsum).
    { intros c' Hc'. apply Hfresh. by right. }
    exists d'. split; [done|]. rewrite Hsum.
    apply dec_stable in Hv. rewrite Hv. ring.
Qed.

(** The first rule that raises ends the loop with its exception. *)
Lemma breakdown_raise pre c post e d err :
  Forall (λ c', ∃ v, get_correction c' e = Ok v) pre →
  get_correction c e = Raise err →
  breakdown (pre ++ c :: post) e d = Raise err.
Proof.
  intros Hpre Hc. revert d.
  induction Hpre as [|c' pre [v Hv] _ IH]; intros d; simpl app;
    rewrite breakdown_cons.
  - by rewrite Hc.
  - rewrite Hv. apply IH.
Qed.

Lemma process_entry_unfold self (l : loc) (σ : Store) :
  Compatibility.process_entry self l σ
  = match breakdown (Compatibility.corrections self) (σ l) ∅ with
    | Ok d =>
        (Ok (Some l),
         <[l := set_correction (σ l) (Compatibility.sum_values d)]> σ)
    | Raise (CompatibilityError _) => (Ok None, σ)
    | Raise err => (Raise err, σ)
    end.
Proof.
  unfold Compatibility.process_entry.
  rewrite get_corrections_dict_breakdown.
  by destruct (breakdown _ _ _) as [d|[]].
Qed.

(** C3, as the code has it.  When the corrections are evaluated in list
    order and the first one that raises an exception raises
    [CompatibilityError], [process_entry] returns [None] and leaves the
    store of entry objects as it was.  When every correction returns a
    value and the corrections have pairwise distinct names,
    [process_entry] returns the entry and sets its correction field to
    the sum of the per-rule values. *)
Theorem process_entry_cases self (l : loc) (σ : Store) :
  (∀ (pre : list Correction) (c : Correction) (post : list Correction) msg,
     Compatibility.corrections self = (pre ++ c :: post)%list →
     Forall (λ c', ∃ v, get_correction c' (σ l) = Ok v) pre →
     get_correction c (σ l) = Raise (CompatibilityError msg) →
     Compatibility.process_entry self l σ = (Ok None, σ)) ∧
  (∀ vals,
     Forall2 (λ c v, get_correction c (σ l) = Ok v)
             (Compatibility.corrections self) vals →
     NoDup (to_str <$> Compatibility.corrections self) →
     Compatibility.process_entry self l σ
     = (Ok (Some l), <[l := set_correction (σ l) (total vals)]> σ)).
Proof.
  split.
  - intros pre c post msg Hcs Hpre Hc. rewrite process_entry_unfold, Hcs.
    by rewrite (breakdown_raise _ _ _ _ _ _ Hpre Hc).
  - intros vals Hvals Hnd. rewrite process_entry_unfold.
    destruct (breakdown_sum _ _ _ ∅ Hvals Hnd) as (d' & -> & Hsum).
    { intros. apply lookup_empty. }
    rewrite Hsum, sum_values_empty. do 3 f_equal. ring.
Qed.

End BreakdownProperties.

(** Witness for C3, with the aqueous scheme: the GGA run of Fe2O3, which the
    "Advanced" U correction rejects after the POTCAR and gas corrections
    returned, and H2, which every correction accepts. *)
Lemma process_entry_cases_witness :
  Compatibility.process_entry aqueous_scheme 0%nat (store_of fe2o3)
  = (Ok None, store_of fe2o3) ∧
  Compatibility.process_entry aqueous_scheme 0%nat (store_of h2)
  = (Ok (Some 0%nat),
     <[0%nat := set_correction h2 (total [0; dec 25 100; 0; dec (-45) 100])]>
       (store_of h2)).
Proof.
  split.
  - apply (proj1 (process_entry_cases aqueous_scheme 0%nat (store_of fe2o3))
             [Potcar (PotcarCorrection.__init__ input_set);
              Gas (GasCorrection.__init__ config true)]
             (U u_advanced)
             [Aqueous (AqueousCorrection.__init__ config)]
             "Invalid U value on Fe").
    + reflexivity.
    + repeat constructor.
      * exists 0. by_evaluation.
      * exists (dec (-198) 100). by_evaluation.
    + by_evaluation.
  - apply (proj2 (process_entry_cases aqueous_scheme 0%nat (store_of h2))).
    + repeat constructor; by_evaluation.
    + by_evaluation.
Defined.

(** C3 fails as stated: both corrections of this scheme return -1.98 for
    Fe2O3 and none raises, yet [process_entry] sets the correction field to
    -1.98, not to the sum -3.96.  The two corrections have the same name, so
    the second value replaces the first in the dict that is summed. *)
Lemma process_entry_same_name_not_sum :
  Forall2 (λ c v, get_correction c fe2o3 = Ok v)
          (Compatibility.corrections two_gas_scheme)
          [dec (-198) 100; dec (-198) 100] ∧
  (Compatibility.process_entry two_gas_scheme 0%nat (store_of fe2o3)).1
  = Ok (Some 0%nat) ∧
  correction
    ((Compatibility.process_entry two_gas_scheme 0%nat (store_of fe2o3)).2 0%nat)
  = dec (-198) 100 ∧
  dec (-198) 100 ≠ total [dec (-198) 100; dec (-198) 100].
Proof.
  split_and!.
  - repeat constructor; by_evaluation.
  - by_evaluation.
  - by_evaluation.
  - by_evaluation.
Qed.

(** Only the first exception counts.  The U correction of the aqueous scheme
    raises [CompatibilityError] on this Hartree-Fock entry, but the POTCAR
    correction, which runs first, raises [ValueError]; [process_entry] then
    raises [ValueError] instead of returning [None]. *)
Lemma process_entry_other_exception_first :
  get_correction (U u_advanced) fe2o3_HF_no_potcar
  = Raise (CompatibilityError "Invalid run type") ∧
  (Compatibility.process_entry aqueous_scheme 0%nat
     (store_of fe2o3_HF_no_potcar)).1
  = Raise (ValueError PotcarCorrection.missing_key_msg).
Proof. split; reflexivity. Qed.

(** C2 does not hold of the code.  In the aqueous scheme, for H2 with
    uncorrected energy -6.75 and correction field 0, the gas correction
    returns 0.25 before the aqueous correction runs; the aqueous value is
    [-3.60 * 2 - (-6.75) - 0 = -0.45], computed from the correction field
    as stored in the entry, and not [-3.60 * 2 - (-6.75) - 0.25 = -0.70]. *)
Theorem aqueous_value_ignores_earlier_rules :
  ∃ d : gmap string Qc,
    (Compatibility.get_corrections_dict aqueous_scheme 0%nat (store_of h2)).1
    = Ok d ∧
    d !! "MP Gas Correction" = Some (dec 25 100) ∧
    d !! "MP Aqueous Correction"
    = Some (dec (-360) 100 * dec 2 1 - dec (-675) 100 - correction h2) ∧
    d !! "MP Aqueous Correction"
    ≠ Some (dec (-360) 100 * dec 2 1 - dec (-675) 100 - dec 25 100).
Proof.
  exists (<["MP Aqueous Correction" := dec (-45) 100]>
            (<["MP Gas Correction" := dec 25 100]> ∅)).
  split_and!; by_evaluation.
Qed.

(** ** The breakdown reads and never assigns *)

Section ReadsOnly.

Implicit Types (h : Ref.Heap) (c : Ref.cref) (cs : list Ref.cref).
Implicit Types (entry : loc) (d : gmap string Qc).

Ltac run_reads :=
  unfold mbind, Ref.Prog_bind, mret, Ref.Prog_ret, Ref.entry_attr,
    Ref.potcar_attr, Ref.gas_attr, Ref.aqueous_attr, Ref.u_attr, Ref.lift,
    Ref.raise;
  cbn beta iota.

(** Each method returns the heap it was given, and its result is that of
    the method on the objects the references denote. *)
Lemma potcar_get_correction_reads (self entry : loc) h :
  Ref.potcar_get_correction self entry h
  = (PotcarCorrection.get_correction (Ref.potcar_objs h self)
       (Ref.entry_objs h entry), h).
Proof.
  unfold Ref.potcar_get_correction, PotcarCorrection.get_correction.
  run_reads.
  destruct (potcar_symbols _) as [syms|]; [|done].
  destruct (PotcarCorrection.second_tokens syms) as [toks|]; [|done].
  cbn. by case_decide.
Qed.

Lemma gas_add_rate_reads (self : loc) (corr : Qc) key (amount : Qc) h :
  Ref.gas_add_rate self corr key amount h
  = (GasCorrection.add_rate (Ref.gas_objs h self) corr key amount, h).
Proof.
  unfold Ref.gas_add_rate, GasCorrection.add_rate. run_reads.
  by destruct (getitem _ _).
Qed.

Lemma gas_get_correction_reads (self entry : loc) h :
  Ref.gas_get_correction self entry h
  = (GasCorrection.get_correction (Ref.gas_objs h self)
       (Ref.entry_objs h entry), h).
Proof.
  unfold Ref.gas_get_correction, GasCorrection.get_correction.
  run_reads.
  repeat (case_match; simplify_eq/=; rewrite ?gas_add_rate_reads; try done).
Qed.

Lemma aqueous_get_correction_reads (self entry : loc) h :
  Ref.aqueous_get_correction self entry h
  = (AqueousCorrection.get_correction (Ref.aqueous_objs h self)
       (Ref.entry_objs h entry), h).
Proof.
  unfold Ref.aqueous_get_correction, AqueousCorrection.get_correction.
  run_reads.
  repeat (case_match; simplify_eq/=; try done).
Qed.

Lemma u_get_correction_reads (self entry : loc) h :
  Ref.u_get_correction self entry h
  = (UCorrection.get_correction (Ref.u_objs h self)
       (Ref.entry_objs h entry), h).
Proof.
  unfold Ref.u_get_correction, UCorrection.get_correction.
  run_reads.
  repeat (case_match; simplify_eq/=; try done).
Qed.

Lemma get_correction_reads c entry h :
  Ref.get_correction c entry h
  = (get_correction (Ref.object_of h c) (Ref.entry_objs h entry), h).
Proof.
  destruct c as [self|self|self|self]; simpl.
  - apply potcar_get_correction_reads.
  - apply gas_get_correction_reads.
  - apply aqueous_get_correction_reads.
  - apply u_get_correction_reads.
Qed.

Lemma to_str_reads c h :
  Ref.to_str c h = (Ok (to_str (Ref.object_of h c)), h).
Proof. by destruct c. Qed.

Lemma corrections_loop_reads cs entry d h :
  Ref.corrections_loop cs entry d h
  = (breakdown (Ref.object_of h <$> cs) (Ref.entry_objs h entry) d, h).
Proof.
  revert d. induction cs as [|c cs IH]; intros d; [done|].
  rewrite fmap_cons, breakdown_cons.
  change (Ref.corrections_loop (c :: cs) entry d h)
    with (match Ref.get_correction c entry h with
          | (Ok val, h') =>
              (if decide (val ≠ 0)
               then key ← Ref.to_str c;
                    Ref.corrections_loop cs entry (<[key := val]> d)
               else Ref.corrections_loop cs entry d) h'
          | (Raise e, h') => (Raise e, h')
          end).
  rewrite get_correction_reads.
  destruct (get_correction _ _) as [val|err]; [|done].
  case_decide; [|apply IH].
  unfold mbind, Ref.Prog_bind. rewrite to_str_reads. apply IH.
Qed.

(** The reference-passing breakdown is the value-passing one on the
    objects denoted. *)
Lemma get_corrections_dict_reads cs entry h :
  Ref.get_corrections_dict cs entry h
  = (breakdown (Ref.object_of h <$> cs) (Ref.entry_objs h entry) ∅, h).
Proof. apply corrections_loop_reads. Qed.

Lemma set_entries_same h : Ref.set_entries h (Ref.entry_objs h) = h.
Proof. by destruct h. Qed.

(** [process_entry] is where the aggregator assigns: the heap after it is
    the heap before with the store of entry objects that
    [Compatibility.process_entry] leaves; no correction object changes. *)
Lemma process_entry_refines cs entry h :
  Ref.process_entry cs entry h
  = let '(r, σ') :=
      Compatibility.process_entry
        (Compatibility.__init__ (Ref.object_of h <$> cs)) entry
        (Ref.entry_objs h) in
    (r, Ref.set_entries h σ').
Proof.
  unfold Ref.process_entry.
  rewrite get_corrections_dict_reads, process_entry_unfold. simpl.
  destruct (breakdown _ _ _) as [d|[]]; by rewrite ?set_entries_same.
Qed.

(** C9.  [get_corrections_dict] assigns no attribute of any object: the
    heap after the call, with every entry object and every correction
    object, is the heap before it.  So a second call in succession returns
    what the first returned, the same mapping or the same exception.  The
    result is decided by the entry object and the correction objects of the
    scheme: on any heap that holds the same entry and the same corrections
    the call returns the same. *)
Theorem get_corrections_dict_reads_only cs entry h :
  let run := Ref.get_corrections_dict cs entry in
  (run h).2 = h ∧
  run (run h).2 = run h ∧
  ∀ h',
    Ref.entry_objs h' entry = Ref.entry_objs h entry →
    Forall (λ c, Ref.object_of h' c = Ref.object_of h c) cs →
    (run h').1 = (run h).1.
Proof.
  cbv zeta. rewrite get_corrections_dict_reads. simpl. split_and!.
  - done.
  - by rewrite get_corrections_dict_reads.
  - intros h' Hentry Hobjs. rewrite get_corrections_dict_reads. simpl.
    rewrite Hentry. f_equal.
    induction Hobjs as [|c cs' Hc _ IH]; [done|].
    by rewrite !fmap_cons, Hc, IH.
Qed.

End ReadsOnly.

(** Witness for C9: the aqueous scheme on H2, in a heap that holds only H2
    and in a heap that holds Fe2O3 at the other references. *)
Lemma get_corrections_dict_reads_only_witness :
  (Ref.get_corrections_dict aqueous_refs 0%nat (heap_of store_h2_fe2o3)).1
  = (Ref.get_corrections_dict aqueous_refs 0%nat (heap_of (store_of h2))).1.
Proof.
  apply (get_corrections_dict_reads_only aqueous_refs 0%nat
           (heap_of (store_of h2))).
  - reflexivity.
  - repeat constructor.
Defined.

(** ** Compatibility: batches of entries *)

Section BatchProperties.

Implicit Types (self : Compatibility.t) (cs : list Correction).
Implicit Types (d : gmap string Qc) (e : Entry) (x : Qc).
Implicit Types (l : loc) (entries : list loc) (σ : Store).

Lemma set_correction_set e x y :
  set_correction (set_correction e x) y = set_correction e y.
Proof. reflexivity. Qed.

Lemma set_correction_id e : set_correction e (correction e) = e.
Proof. by destruct e. Qed.

(** Whether a correction raises, and what, does not depend on the
    correction field of the entry: only [AqueousCorrection] reads the
    field, and it never raises. *)
Lemma get_correction_raised (c : Correction) e x :
  raised (get_correction c (set_correction e x))
  = raised (get_correction c e).
Proof. by destruct c. Qed.

Lemma breakdown_raised cs e x d d' :
  raised (breakdown cs (set_correction e x) d) = raised (breakdown cs e d').
Proof.
  revert d d'. induction cs as [|c cs IH]; intros d d'; [done|].
  rewrite !breakdown_cons.
  pose proof (get_correction_raised c e x) as Hc.
  destruct (get_correction c (set_correction e x)),
           (get_correction c e); simplify_eq/=; [apply IH|done].
Qed.

Lemma mapM_cons_run {A B} (f : A → M B) (a : A) (la : list A) σ :
  mapM f (a :: la) σ
  = match f a σ with
    | (Ok b, σ1) =>
        match mapM f la σ1 with
        | (Ok lb, σ2) => (Ok (b :: lb), σ2)
        | (Raise err, σ2) => (Raise err, σ2)
        end
    | (Raise err, σ1) => (Raise err, σ1)
    end.
Proof.
  simpl. unfold mbind, M_bind. destruct (f a σ) as [[b|err] σ1]; [|done].
  by destruct (mapM (M:=M) f la σ1) as [[lb|err] σ2].
Qed.

Lemma rejected_breakdown self l σ :
  rejected self σ l ↔
  ∃ msg, breakdown (Compatibility.corrections self) (σ l) ∅
         = Raise (CompatibilityError msg).
Proof.
  unfold rejected. rewrite process_entry_unfold.
  destruct (breakdown _ _ _) as [d|[]]; simpl; split;
    try done; try (intros [? ?]; done). by eexists.
Qed.

(** Running [process_entry] over [entries] from a store [σi] that differs
    from [σ] in correction fields only. *)
Lemma mapM_process_entry self σ entries :
  ∀ σi : Store,
    (∀ l, ∃ x, σi l = set_correction (σ l) x) →
    match mapM (Compatibility.process_entry self) entries σi with
    | (Ok rs, σ') =>
        omap id rs = filter (λ l, ¬ rejected self σ l) entries ∧
        (∀ l, ∃ x, σ' l = set_correction (σ l) x) ∧
        (∀ l, l ∉ entries → σ' l = σi l) ∧
        (NoDup entries → (∀ l, l ∈ entries → σi l = σ l) →
         ∀ l, l ∈ entries → ¬ rejected self σ l →
              σ' l = (Compatibility.process_entry self l σ).2 l)
    | (Raise err, _) =>
        ∃ l, l ∈ entries ∧
             (Compatibility.process_entry self l σ).1 = Raise err
    end.
Proof.
  induction entries as [|l ls IH]; intros σi Hagree.
  { simpl. split_and!; [done..|]. intros _ _ l Hl. by apply elem_of_nil in Hl. }
  rewrite mapM_cons_run, process_entry_unfold.
  destruct (Hagree l) as [x Hx].
  pose proof (breakdown_raised (Compatibility.corrections self)
                (σ l) x ∅ ∅) as Hr.
  rewrite <-Hx in Hr.
  pose proof (rejected_breakdown self l σ) as Hrej.
  pose proof (process_entry_unfold self l σ) as Halone.
  destruct (breakdown _ (σi l) ∅) as [di|erri] eqn:Ei;
    destruct (breakdown _ (σ l) ∅) as [d0|err0] eqn:E0;
    simplify_eq/=.
  - (* accepted *)
    assert (¬ rejected self σ l) as Hacc.
    { rewrite Hrej. by intros [? ?]. }
    set (σ1 := <[l := set_correction (σi l) (Compatibility.sum_values di)]> σi).
    assert (∀ l', ∃ y, σ1 l' = set_correction (σ l') y) as Hagree1.
    { intros l'. unfold σ1. destruct (decide (l = l')) as [<-|Hne].
      - rewrite fn_lookup_insert, Hx. by eexists.
      - rewrite fn_lookup_insert_ne by done. apply Hagree. }
    specialize (IH σ1 Hagree1).
    destruct (mapM (M:=M) (Compatibility.process_entry self) ls σ1) as [[rs|err] σ'].
    + destruct IH as (Hout & Hag & Hframe & Hfield). split_and!.
      * change (omap id (Some l :: rs)) with (l :: omap id rs).
        rewrite filter_cons_True by done. by rewrite Hout.
      * done.
      * intros l' [Hne Hl']%not_elem_of_cons. rewrite (Hframe _ Hl').
        unfold σ1. by rewrite fn_lookup_insert_ne.
      * intros [Hl Hnd]%NoDup_cons Hsame l' Hin Hacc'.
        assert (σi l = σ l) as Hl_same by (apply Hsame; by left).
        apply elem_of_cons in Hin as [->|Hin].
        -- rewrite (Hframe _ Hl), Halone. unfold σ1. simpl.
           rewrite !fn_lookup_insert, Hl_same.
           rewrite Hl_same, E0 in Ei. by injection Ei as ->.
        -- apply Hfield; [done| |done..].
           intros l'' Hl''. unfold σ1.
           rewrite fn_lookup_insert_ne by (by intros ->).
           apply Hsame. by right.
    + destruct IH as (l' & Hl' & Herr). exists l'. split; [by right|done].
  - (* raised *)
    destruct err0 as [msg| | |].
    + assert (rejected self σ l) as Hrejl by (rewrite Hrej; by eexists).
      specialize (IH σi Hagree).
      destruct (mapM (M:=M) (Compatibility.process_entry self) ls σi) as [[rs|err] σ'].
      * destruct IH as (Hout & Hag & Hframe & Hfield). split_and!.
        -- change (omap id (None :: rs)) with (omap id rs).
           by rewrite filter_cons_False by (by intros ?).
        -- done.
        -- intros l' [Hne Hl']%not_elem_of_cons. by apply Hframe.
        -- intros [Hl Hnd]%NoDup_cons Hsame l' Hin Hacc'.
           apply elem_of_cons in Hin as [->|Hin]; [done|].
           apply Hfield; [done| |done..].
           intros l'' Hl''. apply Hsame. by right.
      * destruct IH as (l' & Hl' & Herr). exists l'. split; [by right|done].
    + exists l. split; [by left|]. by rewrite Halone.
    + exists l. split; [by left|]. by rewrite Halone.
    + exists l. split; [by left|]. by rewrite Halone.
Qed.

(** C6, as the code has it.  When [process_entries] returns, its result
    is the input with the rejected entries filtered out, in the input
    order, and so no longer than the input; if no entry object occurs
    twice in the input, the correction field of each surviving entry is
    the one [process_entry] alone sets.  When [process_entries] raises,
    [process_entry] alone raises the same exception on some entry of the
    input. *)
Theorem process_entries_spec self entries σ :
  match Compatibility.process_entries self entries σ with
  | (Ok out, σ') =>
      out = filter (λ l, ¬ rejected self σ l) entries ∧
      sublist out entries ∧
      (length out ≤ length entries)%nat ∧
      (NoDup entries →
       ∀ l, l ∈ out →
            correction (σ' l)
            = correction ((Compatibility.process_entry self l σ).2 l))
  | (Raise err, _) =>
      ∃ l, l ∈ entries ∧
           (Compatibility.process_entry self l σ).1 = Raise err
  end.
Proof.
  unfold Compatibility.process_entries, mbind, M_bind.
  pose proof (mapM_process_entry self σ entries σ) as H.
  destruct (mapM (M:=M) (Compatibility.process_entry self) entries σ) as [[rs|err] σ'].
  - destruct H as (Hout & _ & _ & Hfield).
    { intros l. exists (correction (σ l)). by rewrite set_correction_id. }
    simpl. rewrite Hout. split_and!.
    + done.
    + apply sublist_filter.
    + apply length_filter.
    + intros Hnd l [Hacc Hin]%list_elem_of_filter.
      by rewrite (Hfield Hnd (λ _ _, eq_refl) l Hin Hacc).
  - apply H. intros l. exists (correction (σ l)). by rewrite set_correction_id.
Qed.

End BatchProperties.

(** Witness for C6, with the aqueous scheme on two distinct entries: H2 at
    reference 0, which survives, and the GGA run of Fe2O3 at reference 1,
    which is rejected. *)
Lemma process_entries_spec_witness :
  NoDup [0%nat; 1%nat] ∧
  (Compatibility.process_entries aqueous_scheme [0%nat; 1%nat] store_h2_fe2o3).1
  = Ok [0%nat] ∧
  correction
    ((Compatibility.process_entries aqueous_scheme [0%nat; 1%nat]
        store_h2_fe2o3).2 0%nat)
  = correction
      ((Compatibility.process_entry aqueous_scheme 0%nat store_h2_fe2o3).2 0%nat).
Proof.
  assert (NoDup [0%nat; 1%nat]) as Hnd by by_evaluation.
  assert ((Compatibility.process_entries aqueous_scheme [0%nat; 1%nat]
             store_h2_fe2o3).1 = Ok [0%nat]) as Hout by by_evaluation.
  pose proof (process_entries_spec aqueous_scheme [0%nat; 1%nat]
                store_h2_fe2o3) as H.
  destruct (Compatibility.process_entries _ _ _) as [r σ'].
  simpl in Hout. subst r. destruct H as (_ & _ & _ & Hfield).
  split_and!; [done..|]. apply (Hfield Hnd). by left.
Defined.

(** C6 fails as stated when an entry object occurs twice in the input: H2
    is processed twice, the second time with the correction field the first
    pass left, and ends with correction 0, while [process_entry] alone sets
    it to -0.20. *)
Lemma process_entries_repeated_entry :
  (Compatibility.process_entries aqueous_scheme [0%nat; 0%nat] (store_of h2)).1
  = Ok [0%nat; 0%nat] ∧
  correction
    ((Compatibility.process_entries aqueous_scheme [0%nat; 0%nat]
        (store_of h2)).2 0%nat) = 0 ∧
  correction
    ((Compatibility.process_entry aqueous_scheme 0%nat (store_of h2)).2 0%nat)
  = dec (-20) 100 ∧
  0 ≠ dec (-20) 100.
Proof. split_and!; by_evaluation. Qed.

(** * Further properties of the corrections *)

(** ** PotcarCorrection: every outcome *)

Section PotcarOutcomes.

Implicit Types (self : PotcarCorrection.t) (entry : Entry).
Implicit Types (sym tok : string) (syms toks : list string).

Lemma split_nonempty sep s : split sep s ≠ [].
Proof.
  destruct s as [|c s]; simpl; [done|].
  destruct (Ascii.eqb c sep); [done|]. by destruct (split sep s).
Qed.

Lemma potcar_identifier_space sym :
  contains_char " " sym = true → is_Some (potcar_identifier sym).
Proof.
  unfold potcar_identifier. induction sym as [|c s IH]; simpl; [done|].
  destruct (Ascii.eqb c " ") eqn:Hc; simpl.
  - intros _. pose proof (split_nonempty " " s) as Hne.
    destruct (split " " s); [done|]. by eexists.
  - intros Hs. specialize (IH Hs).
    pose proof (split_nonempty " " s) as Hne.
    by destruct (split " " s).
Qed.

Lemma potcar_identifier_is_Some sym :
  is_Some (potcar_identifier sym) ↔ contains_char " " sym = true.
Proof.
  split; [|apply potcar_identifier_space].
  destruct (contains_char " " sym) eqn:Hc; [done|].
  rewrite (potcar_identifier_no_space _ Hc). by intros [? ?].
Qed.

(** The list comprehension in closed form: the identifiers of all symbols,
    or [IndexError] as soon as one symbol has none. *)
Lemma second_tokens_closed syms :
  PotcarCorrection.second_tokens syms
  = if decide (Forall (λ sym, is_Some (potcar_identifier sym)) syms)
    then Ok (omap potcar_identifier syms)
    else Raise IndexError.
Proof.
  induction syms as [|sym syms IH]; [done|].
  rewrite second_tokens_cons, IH. unfold list_getitem.
  change (split " " sym !! 1%nat) with (potcar_identifier sym).
  change (omap potcar_identifier (sym :: syms))
    with (match potcar_identifier sym with
          | Some tok => tok :: omap potcar_identifier syms
          | None => omap potcar_identifier syms
          end).
  destruct (potcar_identifier sym) as [tok|] eqn:Hid.
  - destruct (decide (Forall _ syms)) as [Hall|Hnot].
    + rewrite decide_True; [reflexivity|]. constructor; [by eexists|done].
    + rewrite decide_False; [reflexivity|]. by intros [_ ?]%Forall_cons.
  - rewrite (decide_False (P := Forall _ (sym :: syms))); [reflexivity|].
    intros [[tok Htok] _]%Forall_cons. by rewrite Hid in Htok.
Qed.

Lemma omap_identifier_Forall2 syms :
  Forall (λ sym, is_Some (potcar_identifier sym)) syms →
  Forall2 (λ sym tok, potcar_identifier sym = Some tok)
          syms (omap potcar_identifier syms).
Proof.
  induction 1 as [|sym syms [tok Htok] _ IH]; [constructor|].
  change (omap potcar_identifier (sym :: syms))
    with (match potcar_identifier sym with
          | Some tok => tok :: omap potcar_identifier syms
          | None => omap potcar_identifier syms
          end).
  rewrite Htok. by constructor.
Qed.

(** X1.  [get_correction] is a gate: it has exactly four outcomes, and the
    only value it ever returns is 0. *)
Theorem potcar_outcomes self entry :
  PotcarCorrection.get_correction self entry = Ok 0 ∨
  PotcarCorrection.get_correction self entry
  = Raise (CompatibilityError "Incompatible potcar") ∨
  PotcarCorrection.get_correction self entry
  = Raise (ValueError PotcarCorrection.missing_key_msg) ∨
  PotcarCorrection.get_correction self entry = Raise IndexError.
Proof.
  unfold PotcarCorrection.get_correction.
  destruct (potcar_symbols (parameters entry)) as [syms|]; [|auto].
  rewrite second_tokens_closed.
  destruct (decide (Forall _ syms)); [|auto]. cbn.
  case_decide; auto.
Qed.

(** X2.  For an entry that has the "potcar_symbols" key, [get_correction]
    raises [IndexError] exactly when some symbol contains no space. *)
Theorem potcar_index_error_iff self entry syms :
  potcar_symbols (parameters entry) = Some syms →
  PotcarCorrection.get_correction self entry = Raise IndexError ↔
  Exists (λ sym, contains_char " " sym = false) syms.
Proof.
  intros Hs. unfold PotcarCorrection.get_correction.
  rewrite Hs, second_tokens_closed.
  destruct (decide (Forall _ syms)) as [Hall|Hnot]; cbn.
  - split.
    + by case_decide.
    + intros (sym & Hin & Hc)%Exists_exists.
      rewrite Forall_forall in Hall. specialize (Hall sym Hin).
      apply potcar_identifier_is_Some in Hall. congruence.
  - split; [intros _|done].
    apply not_Forall_Exists in Hnot; [|intros ?; apply _].
    eapply Exists_impl; [exact Hnot|]. intros sym Hsym. cbn in Hsym.
    rewrite potcar_identifier_is_Some in Hsym.
    by destruct (contains_char " " sym).
Qed.

(** X3.  A correction built from an input set accepts an entry exactly when
    the entry has the "potcar_symbols" key and the identifier of every
    symbol is the POTCAR that the input set assigns to some element. *)
Theorem potcar_accepts_iff (i_s : InputSet) entry :
  PotcarCorrection.get_correction (PotcarCorrection.__init__ i_s) entry = Ok 0
  ↔ ∃ syms,
      potcar_symbols (parameters entry) = Some syms ∧
      Forall (λ sym, ∃ tok el, potcar_identifier sym = Some tok ∧
                               potcar_settings i_s !! el = Some tok) syms.
Proof.
  unfold PotcarCorrection.get_correction.
  destruct (potcar_symbols (parameters entry)) as [syms|];
    [|split; [done|by intros (? & ? & _)]].
  rewrite second_tokens_closed. split.
  - intros Hrun. exists syms. split; [done|].
    destruct (decide (Forall _ syms)) as [Hall|]; [|done]. cbn in Hrun.
    case_decide as Hsub; [|done].
    apply list_to_set_subseteq in Hsub.
    pose proof (omap_identifier_Forall2 _ Hall) as Hids.
    clear Hall Hrun. induction Hids as [|sym tok syms toks Hid _ IH];
      [constructor|].
    apply Forall_cons in Hsub as [Htok Hsub].
    constructor; [|by apply IH].
    apply elem_of_map_img in Htok as [el Hel]. by exists tok, el.
  - intros (syms' & [= <-] & Hall).
    rewrite decide_True.
    + cbn. rewrite decide_True; [done|]. apply list_to_set_subseteq.
      induction Hall as [|sym syms (tok & el & Hid & Hel) _ IH]; [constructor|].
      change (omap potcar_identifier (sym :: syms))
        with (match potcar_identifier sym with
              | Some tok => tok :: omap potcar_identifier syms
              | None => omap potcar_identifier syms
              end).
      rewrite Hid. constructor; [|done].
      apply elem_of_map_img. by exists el.
    + eapply Forall_impl; [exact Hall|]. intros sym (tok & _ & Hid & _).
      by eexists.
Qed.

(** X4.  The outcome does not depend on the order in which the entry lists
    its POTCAR symbols. *)
Theorem potcar_order_irrelevant self entry entry' syms syms' :
  potcar_symbols (parameters entry) = Some syms →
  potcar_symbols (parameters entry') = Some syms' →
  syms ≡ₚ syms' →
  PotcarCorrection.get_correction self entry
  = PotcarCorrection.get_correction self entry'.
Proof.
  intros Hs Hs' Hperm. unfold PotcarCorrection.get_correction.
  rewrite Hs, Hs', !second_tokens_closed.
  destruct (decide (Forall _ syms)) as [Hall|Hnot].
  - rewrite decide_True by (by rewrite <-Hperm). cbn.
    assert (list_to_set (omap potcar_identifier syms)
            =@{gset string} list_to_set (omap potcar_identifier syms')) as ->;
      [|done].
    apply list_to_set_perm_L. by rewrite Hperm.
  - rewrite decide_False; [done|]. by rewrite <-Hperm.
Qed.

End PotcarOutcomes.

(** Witness for X2: the symbol O of this entry contains no space. *)
Lemma potcar_index_error_iff_witness :
  PotcarCorrection.get_correction (PotcarCorrection.__init__ input_set)
    fe2o3_bad_symbols = Raise IndexError.
Proof.
  apply (potcar_index_error_iff _ fe2o3_bad_symbols
           ["PAW_PBE Fe_sv 06Sep2000"; "O"]); [reflexivity|].
  apply Exists_cons_tl, Exists_cons_hd. reflexivity.
Defined.

(** Witness for X4: Fe2O3 with its two POTCAR symbols in either order. *)
Lemma potcar_order_irrelevant_witness :
  PotcarCorrection.get_correction (PotcarCorrection.__init__ input_set) fe2o3
  = PotcarCorrection.get_correction (PotcarCorrection.__init__ input_set)
      fe2o3_swapped.
Proof.
  apply (potcar_order_irrelevant _ fe2o3 fe2o3_swapped
           ["PAW_PBE Fe_pv 06Sep2000"; "PAW_PBE O 08Apr2002"]
           ["PAW_PBE O 08Apr2002"; "PAW_PBE Fe_pv 06Sep2000"]);
    [reflexivity..|].
  apply perm_swap.
Defined.

(** ** UCorrection: the governing element and the U check *)

Section UGeneral.

Implicit Types (self : UCorrection.t) (entry : Entry) (comp : Composition).

Lemma insert_by_perm {A} (key : A → Qc) x l : insert_by key x l ≡ₚ x :: l.
Proof.
  induction l as [|y l IH]; simpl; [done|].
  case_decide; [done|]. by rewrite IH, perm_swap.
Qed.

Lemma insert_by_sorted {A} (key : A → Qc) x l :
  StronglySorted (λ a b, (key a ≤ key b)%Qc) l →
  StronglySorted (λ a b, (key a ≤ key b)%Qc) (insert_by key x l).
Proof.
  induction 1 as [|y l Hl IH Hy]; simpl; [by repeat constructor|].
  case_decide as Hxy.
  - constructor; [by constructor|]. constructor; [by apply Qclt_le_weak|].
    eapply Forall_impl; [exact Hy|]. intros z Hz. simpl in Hz.
    eapply Qcle_trans; [|exact Hz]. by apply Qclt_le_weak.
  - constructor; [done|]. rewrite insert_by_perm.
    constructor; [by apply Qcnot_lt_le|done].
Qed.

Lemma last_insert_by {A} (key : A → Qc) x l :
  StronglySorted (λ a b, (key a ≤ key b)%Qc) l →
  list.last (insert_by key x l)
  = match list.last l with
    | None => Some x
    | Some b => if decide (key x < key b) then Some b else Some x
    end.
Proof.
  induction 1 as [|y l Hl IH Hy]; simpl insert_by; [done|].
  destruct (decide (key x < key y)) as [Hxy|Hxy].
  - change (list.last (x :: y :: l)) with (list.last (y :: l)).
    destruct (list.last (y :: l)) as [b|] eqn:Hb;
      [|by apply last_None in Hb].
    rewrite decide_True; [done|].
    apply last_Some_elem_of, elem_of_cons in Hb as [->|Hb]; [done|].
    rewrite Forall_forall in Hy.
    eapply Qclt_le_trans; [exact Hxy|]. by apply Hy.
  - destruct l as [|z l].
    + simpl. by rewrite decide_False.
    + change (list.last (y :: z :: l)) with (list.last (z :: l)).
      rewrite <-IH. simpl insert_by. by case_decide.
Qed.

Lemma last_sorted_acc {A} (key : A → Qc) l acc :
  StronglySorted (λ a b, (key a ≤ key b)%Qc) acc →
  list.last (fold_left (λ acc x, insert_by key x acc) l acc)
  = fold_left (λ best x, match best with
                         | None => Some x
                         | Some b => if decide (key x < key b) then Some b
                                     else Some x
                         end) l (list.last acc).
Proof.
  revert acc. induction l as [|x l IH]; intros acc Hacc; simpl; [done|].
  rewrite IH by (by apply insert_by_sorted). by rewrite last_insert_by.
Qed.

Lemma last_sorted {A} (key : A → Qc) (l : list A) :
  list.last (sorted key l) = pick_last_max key l.
Proof. exact (last_sorted_acc key l [] (SSorted_nil _)). Qed.

Lemma pick_last_max_acc {A} (key : A → Qc) (l : list A) best m :
  fold_left (λ best x, match best with
                       | None => Some x
                       | Some b => if decide (key x < key b) then Some b
                                   else Some x
                       end) l best = Some m →
  (m ∈ l ∨ best = Some m) ∧
  (∀ x, x ∈ l → (key x ≤ key m)%Qc) ∧
  (∀ b, best = Some b → (key b ≤ key m)%Qc).
Proof.
  revert best. induction l as [|x l IH]; intros best; simpl.
  { intros ->. split_and!; [by right| |by intros b [= ->]].
    intros x Hx. by apply elem_of_nil in Hx. }
  intros Hfold. apply IH in Hfold as (Hin & Hmax & Hbest).
  destruct best as [b|].
  - destruct (decide (key x < key b)) as [Hxb|Hxb].
    + split_and!.
      * destruct Hin as [?|?]; [left; by right|by right].
      * intros y [->|Hy]%elem_of_cons; [|by apply Hmax].
        eapply Qcle_trans; [by apply Qclt_le_weak|]. by apply Hbest.
      * intros b' [= <-]. by apply Hbest.
    + split_and!.
      * destruct Hin as [?|[= ->]]; [left; by right|left; by left].
      * intros y [->|Hy]%elem_of_cons; [by apply Hbest|by apply Hmax].
      * intros b' [= <-]. eapply Qcle_trans; [by apply Qcnot_lt_le|].
        by apply Hbest.
  - split_and!; [|intros y [->|Hy]%elem_of_cons; [by apply Hbest|by apply Hmax]
                 |done].
    destruct Hin as [?|[= ->]]; [left; by right|left; by left].
Qed.

Lemma pick_last_max_stays {A} (key : A → Qc) (l : list A) m :
  Forall (λ x, key x < key m) l →
  fold_left (λ best x, match best with
                       | None => Some x
                       | Some b => if decide (key x < key b) then Some b
                                   else Some x
                       end) l (Some m) = Some m.
Proof.
  induction 1 as [|x l Hx _ IH]; simpl; [done|]. by rewrite decide_True.
Qed.

(** X5.  The governing element is an element of the composition in
    positive amount, and no element in positive amount has a larger
    electronegativity. *)
Theorem governing_element_max comp m :
  governing_element comp = Some m →
  m ∈ elements comp ∧
  0 < comp_get comp (symbol m) ∧
  ∀ el, el ∈ elements comp → 0 < comp_get comp (symbol el) → (X el ≤ X m)%Qc.
Proof.
  unfold governing_element. rewrite last_sorted. unfold pick_last_max.
  intros (Hin & Hmax & _)%pick_last_max_acc.
  destruct Hin as [Hin|?]; [|done].
  apply list_elem_of_filter in Hin as [Hpos Hin]. split_and!; [done..|].
  intros el Hel Hel_pos. apply Hmax. by apply list_elem_of_filter.
Qed.

(** X6.  Ties go to the element that comes latest in the iteration order of
    the composition: an element governs when no earlier element (in
    positive amount) has a larger electronegativity and every later one has
    a strictly smaller one. *)
Theorem governing_element_latest comp (pre post : list Element) m :
  filter (λ el, 0 < comp_get comp (symbol el)) (elements comp)
  = (pre ++ m :: post)%list →
  Forall (λ el, (X el ≤ X m)%Qc) pre →
  Forall (λ el, X el < X m) post →
  governing_element comp = Some m.
Proof.
  intros Hels Hpre Hpost. unfold governing_element.
  rewrite last_sorted, Hels. unfold pick_last_max.
  rewrite fold_left_app. simpl.
  destruct (fold_left _ pre None) as [b|] eqn:Hb.
  - apply pick_last_max_acc in Hb as (Hin & _ & _).
    destruct Hin as [Hin|?]; [|done].
    rewrite Forall_forall in Hpre.
    rewrite decide_False by (by apply Qcle_not_lt, Hpre).
    by apply pick_last_max_stays.
  - by apply pick_last_max_stays.
Qed.

Lemma get_correction_governing self entry :
  ¬ is_HF entry →
  UCorrection.get_correction self entry
  = match governing_element (composition entry) with
    | None => Raise IndexError
    | Some m =>
        UCorrection.check_elements
          (default ∅ (hubbards (parameters entry)))
          (dict_get (UCorrection.u_settings self) (symbol m) ∅)
          (dict_get (UCorrection.u_corrections self) (symbol m) ∅)
          (composition entry) (elements (composition entry)) 0
    end.
Proof.
  intros HF. rewrite is_HF_run_type in HF.
  unfold UCorrection.get_correction. by rewrite decide_False.
Qed.

Lemma u_total_cons ucorr comp el els :
  u_total ucorr comp (el :: els)
  = match ucorr !! symbol el with
    | Some rate => rate * comp_get comp (symbol el)
    | None => 0
    end + u_total ucorr comp els.
Proof. reflexivity. Qed.

Lemma check_elements_ok calc_u usettings ucorr comp els corr :
  Forall (λ el, dict_get calc_u (symbol el) 0
                = dict_get usettings (symbol el) 0) els →
  UCorrection.check_elements calc_u usettings ucorr comp els corr
  = Ok (corr + u_total ucorr comp els).
Proof.
  intros Hall. revert corr.
  induction Hall as [|el els Hel _ IH]; intros corr; simpl.
  { change (u_total ucorr comp []) with 0. by rewrite Qcplus_0_r. }
  rewrite decide_False by (by intros []). rewrite IH, u_total_cons.
  destruct (ucorr !! symbol el); apply (f_equal Ok); ring.
Qed.

Lemma check_elements_first_mismatch calc_u usettings ucorr comp
    (pre post : list Element) el corr :
  Forall (λ el, dict_get calc_u (symbol el) 0
                = dict_get usettings (symbol el) 0) pre →
  dict_get calc_u (symbol el) 0 ≠ dict_get usettings (symbol el) 0 →
  UCorrection.check_elements calc_u usettings ucorr comp
    (pre ++ el :: post) corr
  = Raise (CompatibilityError ("Invalid U value on " ++ symbol el)).
Proof.
  intros Hpre Hel. revert corr.
  induction Hpre as [|el' pre Hel' _ IH]; intros corr; simpl.
  - by rewrite decide_True.
  - rewrite decide_False by (by intros []). apply IH.
Qed.

(** X7.  When the U value the entry declares for every element of its
    composition is the one the tables expect, the correction is the sum of
    [rate * amount] over the elements that have a correction rate under the
    governing element. *)
Theorem ucorrection_value self entry m :
  ¬ is_HF entry →
  governing_element (composition entry) = Some m →
  Forall (λ el, declared_U entry (symbol el) = expected_U self m (symbol el))
         (elements (composition entry)) →
  UCorrection.get_correction self entry
  = Ok (u_total (dict_get (UCorrection.u_corrections self) (symbol m) ∅)
                (composition entry) (elements (composition entry))).
Proof.
  intros HF Hm Hall. rewrite get_correction_governing, Hm by done.
  rewrite check_elements_ok by done. by rewrite Qcplus_0_l.
Qed.

(** X8.  The first element, in the iteration order of the composition,
    whose declared U value differs from the expected one makes
    [get_correction] raise [CompatibilityError], and the message names that
    element. *)
Theorem ucorrection_first_mismatch self entry m
    (pre post : list Element) el :
  ¬ is_HF entry →
  governing_element (composition entry) = Some m →
  elements (composition entry) = (pre ++ el :: post)%list →
  Forall (λ el, declared_U entry (symbol el) = expected_U self m (symbol el))
         pre →
  declared_U entry (symbol el) ≠ expected_U self m (symbol el) →
  UCorrection.get_correction self entry
  = Raise (CompatibilityError ("Invalid U value on " ++ symbol el)).
Proof.
  intros HF Hm Hels Hpre Hel.
  rewrite get_correction_governing, Hm, Hels by done.
  by apply check_elements_first_mismatch.
Qed.

(** X9.  An entry that is not a Hartree-Fock run and has no element in
    positive amount (the empty composition, for one) makes [get_correction]
    raise [IndexError], in either mode. *)
Theorem ucorrection_no_element self entry :
  ¬ is_HF entry →
  Forall (λ el, ¬ 0 < comp_get (composition entry) (symbol el))
         (elements (composition entry)) →
  UCorrection.get_correction self entry = Raise IndexError.
Proof.
  intros HF Hnone. rewrite get_correction_governing by done.
  unfold governing_element.
  replace (filter _ (elements (composition entry))) with (@nil Element);
    [done|].
  induction Hnone as [|el els Hel _ IH]; [done|].
  by rewrite filter_cons_False.
Qed.

(** X10.  The constructor raises [CompatibilityError] exactly when the
    type is neither "GGA" nor "Advanced", and then with the message
    "Invalid compat_type" followed by the type, whatever the configuration
    and the input set hold: the test of the type comes first. *)
Theorem ucorrection_init_invalid_type (c : Config) (i_s : InputSet)
    (ct : string) :
  ((∃ msg, UCorrection.__init__ c i_s ct = Raise (CompatibilityError msg)) ↔
   ct ≠ "GGA" ∧ ct ≠ "Advanced") ∧
  (ct ≠ "GGA" → ct ≠ "Advanced" →
   UCorrection.__init__ c i_s ct
   = Raise (CompatibilityError ("Invalid compat_type " ++ ct))).
Proof.
  unfold UCorrection.__init__.
  destruct (decide (ct ∈ ["GGA"; "Advanced"])) as [Hin|Hout].
  - assert (ct = "GGA" ∨ ct = "Advanced") as Hct.
    { apply elem_of_cons in Hin as [?|Hin]; [by left|].
      apply list_elem_of_singleton in Hin. by right. }
    split; [|by destruct Hct].
    split; [|by destruct Hct; intros []].
    intros [msg Hmsg]. exfalso.
    destruct (decide (ct = "Advanced")); [|done].
    by destruct (LDAUU i_s).
  - split; [|done]. split; [|by eexists].
    intros _. split; intros ->; apply Hout; set_solver.
Qed.

End UGeneral.

(** Witness for X5: oxygen governs Fe2O3. *)
Lemma governing_element_max_witness :
  el_O ∈ elements comp_Fe2O3 ∧
  0 < comp_get comp_Fe2O3 (symbol el_O) ∧
  ∀ el, el ∈ elements comp_Fe2O3 → 0 < comp_get comp_Fe2O3 (symbol el) →
        (X el ≤ X el_O)%Qc.
Proof. apply (governing_element_max comp_Fe2O3 el_O). reflexivity. Defined.

(** Witness for X6: in CSe2 carbon and selenium have the same
    electronegativity, and selenium, listed second, governs. *)
Lemma governing_element_latest_witness :
  governing_element comp_CSe2 = Some el_Se.
Proof.
  apply (governing_element_latest comp_CSe2 [el_C] [] el_Se).
  - reflexivity.
  - repeat constructor. by_evaluation.
  - constructor.
Defined.

(** Witness for X7: the GGA+U run of Fe2O3 under the "Advanced" tables. *)
Lemma ucorrection_value_witness :
  UCorrection.get_correction u_advanced fe2o3_U
  = Ok (u_total (dict_get (UCorrection.u_corrections u_advanced) "O" ∅)
                comp_Fe2O3 (elements comp_Fe2O3)).
Proof.
  apply (ucorrection_value u_advanced fe2o3_U el_O).
  - discriminate.
  - reflexivity.
  - repeat constructor; by_evaluation.
Defined.

(** Witness for X8: the GGA run of Fe2O3 under the "Advanced" tables, which
    expect U = 5.3 on Fe. *)
Lemma ucorrection_first_mismatch_witness :
  UCorrection.get_correction u_advanced fe2o3
  = Raise (CompatibilityError ("Invalid U value on " ++ "Fe")).
Proof.
  apply (ucorrection_first_mismatch u_advanced fe2o3 el_O [] [el_O] el_Fe).
  - discriminate.
  - reflexivity.
  - reflexivity.
  - constructor.
  - by_evaluation.
Defined.

(** Witness for X9: the empty composition. *)
Lemma ucorrection_no_element_witness :
  UCorrection.get_correction u_advanced empty_entry = Raise IndexError.
Proof.
  apply (ucorrection_no_element u_advanced empty_entry).
  - discriminate.
  - constructor.
Defined.

(** Witness for X10: the type "GGA+U" is refused. *)
Lemma ucorrection_init_invalid_type_witness :
  UCorrection.__init__ config input_set "GGA+U"
  = Raise (CompatibilityError ("Invalid compat_type " ++ "GGA+U")).
Proof.
  apply (ucorrection_init_invalid_type config input_set "GGA+U");
    discriminate.
Defined.

(** ** GasCorrection: the branches *)

Section GasBranches.

Implicit Types (self : GasCorrection.t) (entry : Entry) (comp : Composition).

Lemma superoxide_not_peroxide (rform : string) :
  rform ∈ UCorrection.common_superoxides →
  rform ∉ UCorrection.common_peroxides.
Proof.
  unfold UCorrection.common_superoxides. intros Hin.
  repeat (apply elem_of_cons in Hin as [->|Hin]; [by_evaluation|]).
  by apply elem_of_nil in Hin.
Qed.

Lemma ozonide_not_peroxide (rform : string) :
  rform ∈ UCorrection.ozonides →
  (rform ∉ UCorrection.common_peroxides) ∧
  (rform ∉ UCorrection.common_superoxides).
Proof.
  unfold UCorrection.ozonides. intros Hin.
  repeat (apply elem_of_cons in Hin as [->|Hin]; [split; by_evaluation|]).
  by apply elem_of_nil in Hin.
Qed.

(** X11.  A reduced formula with a compound reference energy decides the
    correction alone: whatever the peroxide flag, the oxide table and the
    entry's classification data and structure, the method returns the
    reference energy times the number of atoms, minus the uncorrected
    energy. *)
Theorem gas_reference_value self entry ref :
  GasCorrection.cpd_energies self
    !! reduced_formula (composition entry) = Some ref →
  GasCorrection.get_correction self entry
  = Ok (ref * num_atoms (composition entry) - uncorrected_energy entry).
Proof.
  intros Hcpd. unfold GasCorrection.get_correction. by rewrite Hcpd.
Qed.

(** X12.  For an entry whose reduced formula has no compound reference
    energy, with the peroxide correction enabled, a composition of at least
    two elements that contains oxygen, no "oxide_type" in the entry's data
    and no structure: the reduced formula selects the key of the rate,
    "peroxide", "superoxide" or "ozonide" for a formula in the list of that
    name and "oxide" for a formula in none of the three, and when the oxide
    table has a rate under that key the method returns the rate times the
    oxygen amount. *)
Theorem gas_formula_lookup self entry key rate :
  GasCorrection.cpd_energies self
    !! reduced_formula (composition entry) = None →
  GasCorrection.correct_peroxide self = true →
  (2 ≤ comp_len (composition entry))%nat →
  comp_contains (composition entry) "O" = true →
  data entry !! "oxide_type" = None →
  structure entry = None →
  (key = "peroxide" ∧
   reduced_formula (composition entry) ∈ UCorrection.common_peroxides) ∨
  (key = "superoxide" ∧
   reduced_formula (composition entry) ∈ UCorrection.common_superoxides) ∨
  (key = "ozonide" ∧
   reduced_formula (composition entry) ∈ UCorrection.ozonides) ∨
  (key = "oxide" ∧
   (reduced_formula (composition entry) ∉ UCorrection.common_peroxides) ∧
   (reduced_formula (composition entry) ∉ UCorrection.common_superoxides) ∧
   (reduced_formula (composition entry) ∉ UCorrection.ozonides)) →
  GasCorrection.oxide_correction self !! key = Some rate →
  GasCorrection.get_correction self entry
  = Ok (rate * comp_get (composition entry) "O").
Proof.
  intros Hcpd Hper Hlen HO Hdata Hstruct Hkey Hrate.
  unfold GasCorrection.get_correction, GasCorrection.add_rate, getitem.
  rewrite Hcpd, Hper, HO, Hdata, Hstruct, (bool_decide_eq_true_2 _ Hlen).
  cbn [andb].
  destruct Hkey as [[-> Hin]|[[-> Hin]|[[-> Hin]|[-> (Hp & Hs & Hz)]]]].
  - rewrite decide_True by done. rewrite Hrate. cbn.
    by rewrite Qcplus_0_l.
  - rewrite decide_False by (by apply superoxide_not_peroxide).
    rewrite decide_True by done. rewrite Hrate. cbn.
    by rewrite Qcplus_0_l.
  - destruct (ozonide_not_peroxide _ Hin) as [Hp Hs].
    rewrite !decide_False by done.
    rewrite decide_True by done. rewrite Hrate. cbn.
    by rewrite Qcplus_0_l.
  - rewrite !decide_False by done.
    assert (1 < length (elements (composition entry)))%nat as Hlen'.
    { unfold elements. rewrite length_fmap. exact Hlen. }
    rewrite (bool_decide_eq_true_2 _ Hlen'). rewrite Hrate. cbn.
    by rewrite Qcplus_0_l.
Qed.

(** X13.  For an entry whose reduced formula has no compound reference
    energy, with the peroxide correction enabled, a composition of at least
    two elements that contains oxygen, no "oxide_type" in the entry's data
    and a structure: if the oxide table has a rate for the type the
    structure is classified as, the method returns that rate times the bond
    count; if it has none, the type is "hydroxide" and the table has an
    "oxide" rate, it returns that rate times the oxygen amount; if it has
    none and the type is not "hydroxide", it returns 0. *)
Theorem gas_structure_classification self entry s :
  GasCorrection.cpd_energies self
    !! reduced_formula (composition entry) = None →
  GasCorrection.correct_peroxide self = true →
  (2 ≤ comp_len (composition entry))%nat →
  comp_contains (composition entry) "O" = true →
  data entry !! "oxide_type" = None →
  structure entry = Some s →
  (∀ rate,
     GasCorrection.oxide_correction self !! ox_type_of s = Some rate →
     GasCorrection.get_correction self entry = Ok (rate * nbonds_of s)) ∧
  (∀ rate,
     GasCorrection.oxide_correction self !! ox_type_of s = None →
     ox_type_of s = "hydroxide" →
     GasCorrection.oxide_correction self !! "oxide" = Some rate →
     GasCorrection.get_correction self entry
     = Ok (rate * comp_get (composition entry) "O")) ∧
  (GasCorrection.oxide_correction self !! ox_type_of s = None →
   ox_type_of s ≠ "hydroxide" →
   GasCorrection.get_correction self entry = Ok 0).
Proof.
  intros Hcpd Hper Hlen HO Hdata Hstruct.
  unfold GasCorrection.get_correction, GasCorrection.add_rate, getitem.
  rewrite Hcpd, Hper, HO, Hdata, Hstruct, (bool_decide_eq_true_2 _ Hlen).
  cbn [andb oxide_type]. split_and!.
  - intros rate ->. by rewrite Qcplus_0_l.
  - intros rate -> Hty Hrate. rewrite decide_True by done. rewrite Hrate.
    cbn. by rewrite Qcplus_0_l.
  - intros -> Hty. by rewrite decide_False.
Qed.

(** X14.  A precomputed classification takes precedence: when the entry's
    data has the key "oxide_type", the correction does not depend on the
    entry's structure, nor on whether it has one. *)
Theorem gas_precomputed_precedence self entry ot (s : option Structure) :
  data entry !! "oxide_type" = Some ot →
  GasCorrection.get_correction self (set_structure entry s)
  = GasCorrection.get_correction self entry.
Proof.
  intros Hdata. unfold GasCorrection.get_correction. cbn [set_structure
    composition uncorrected_energy data structure].
  destruct (GasCorrection.cpd_energies self !! _); [done|].
  destruct (GasCorrection.correct_peroxide self); [|done].
  destruct (_ && _); [|done]. by rewrite Hdata.
Qed.

(** X15.  With the peroxide correction disabled, no classification is
    consulted: every entry without a reference energy gets the "oxide" rate
    times its oxygen amount. *)
Theorem gas_disabled self entry rate :
  GasCorrection.cpd_energies self
    !! reduced_formula (composition entry) = None →
  GasCorrection.correct_peroxide self = false →
  GasCorrection.oxide_correction self !! "oxide" = Some rate →
  GasCorrection.get_correction self entry
  = Ok (rate * comp_get (composition entry) "O").
Proof.
  intros Hcpd Hper Hrate.
  unfold GasCorrection.get_correction, GasCorrection.add_rate, getitem.
  rewrite Hcpd, Hper, Hrate. cbn. by rewrite Qcplus_0_l.
Qed.

(** X16.  For an entry whose reduced formula has no compound reference
    energy, with the peroxide correction enabled, a composition of at least
    two elements that contains oxygen, and an "oxide_type" in the entry's
    data other than "hydroxide": the method returns the oxide table's rate
    for that type times the oxygen amount, and 0 when the table has no rate
    of that name. *)
Theorem gas_precomputed_type self entry ot :
  GasCorrection.cpd_energies self
    !! reduced_formula (composition entry) = None →
  GasCorrection.correct_peroxide self = true →
  (2 ≤ comp_len (composition entry))%nat →
  comp_contains (composition entry) "O" = true →
  data entry !! "oxide_type" = Some ot →
  ot ≠ "hydroxide" →
  GasCorrection.get_correction self entry
  = Ok (match GasCorrection.oxide_correction self !! ot with
        | Some rate => rate * comp_get (composition entry) "O"
        | None => 0
        end).
Proof.
  intros Hcpd Hper Hlen HO Hdata Hot.
  unfold GasCorrection.get_correction.
  rewrite Hcpd, Hper, HO, Hdata, (bool_decide_eq_true_2 _ Hlen).
  cbn [andb].
  destruct (GasCorrection.oxide_correction self !! ot) as [rate|]; cbn;
    rewrite decide_False by done; [|done].
  by rewrite Qcplus_0_l.
Qed.

End GasBranches.

(** Witness for X11: H2 has a reference energy in the sample file; the
    correction here has the peroxide flag disabled and no "oxide" rate. *)
Lemma gas_reference_value_witness :
  GasCorrection.get_correction
    (GasCorrection.__init__ config_no_oxide false) h2
  = Ok (dec (-325) 100 * num_atoms comp_H2 - uncorrected_energy h2).
Proof.
  apply (gas_reference_value (GasCorrection.__init__ config_no_oxide false)
           h2).
  reflexivity.
Defined.

(** Witness for X12: lithium peroxide takes the "peroxide" rate, Fe2O3 the
    "oxide" rate. *)
Lemma gas_formula_lookup_witness :
  GasCorrection.get_correction (GasCorrection.__init__ config true) li2o2
  = Ok (dec (-44) 100 * comp_get comp_Li2O2 "O") ∧
  GasCorrection.get_correction (GasCorrection.__init__ config true) fe2o3
  = Ok (dec (-66) 100 * comp_get comp_Fe2O3 "O").
Proof.
  split.
  - apply (gas_formula_lookup (GasCorrection.__init__ config true) li2o2
             "peroxide"); try reflexivity.
    left. split; [reflexivity|]. by_evaluation.
  - apply (gas_formula_lookup (GasCorrection.__init__ config true) fe2o3
             "oxide"); try reflexivity.
    do 3 right. split; [reflexivity|]. split_and!; by_evaluation.
Defined.

(** Witness for X13: Fe2O3 with a structure classified as peroxide with one
    bond, as hydroxide, and as a type the table does not know. *)
Lemma gas_structure_classification_witness :
  GasCorrection.get_correction (GasCorrection.__init__ config true)
    (set_structure fe2o3 (Some peroxide_structure))
  = Ok (dec (-44) 100 * dec 1 1) ∧
  GasCorrection.get_correction (GasCorrection.__init__ config true)
    (set_structure fe2o3 (Some hydroxide_structure))
  = Ok (dec (-66) 100 * comp_get comp_Fe2O3 "O") ∧
  GasCorrection.get_correction (GasCorrection.__init__ config true)
    (set_structure fe2o3 (Some unknown_structure))
  = Ok 0.
Proof.
  split_and!.
  - apply (proj1 (gas_structure_classification
                    (GasCorrection.__init__ config true)
                    (set_structure fe2o3 (Some peroxide_structure))
                    peroxide_structure eq_refl eq_refl
                    (le_n 2) eq_refl eq_refl eq_refl)).
    reflexivity.
  - apply (proj1 (proj2 (gas_structure_classification
                    (GasCorrection.__init__ config true)
                    (set_structure fe2o3 (Some hydroxide_structure))
                    hydroxide_structure eq_refl eq_refl
                    (le_n 2) eq_refl eq_refl eq_refl)));
      reflexivity.
  - apply (proj2 (proj2 (gas_structure_classification
                    (GasCorrection.__init__ config true)
                    (set_structure fe2o3 (Some unknown_structure))
                    unknown_structure eq_refl eq_refl
                    (le_n 2) eq_refl eq_refl eq_refl)));
      [reflexivity|discriminate].
Defined.

(** Witness for X14: Fe2O3 classified as oxide, with and without a
    structure that says peroxide. *)
Lemma gas_precomputed_precedence_witness :
  GasCorrection.get_correction (GasCorrection.__init__ config true)
    (set_structure fe2o3_classified (Some peroxide_structure))
  = GasCorrection.get_correction (GasCorrection.__init__ config true)
      fe2o3_classified.
Proof.
  apply (gas_precomputed_precedence _ fe2o3_classified "oxide").
  reflexivity.
Defined.

(** Witness for X15: lithium peroxide with the peroxide correction
    disabled takes the "oxide" rate. *)
Lemma gas_disabled_witness :
  GasCorrection.get_correction (GasCorrection.__init__ config false) li2o2
  = Ok (dec (-66) 100 * comp_get comp_Li2O2 "O").
Proof.
  apply (gas_disabled (GasCorrection.__init__ config false) li2o2);
    reflexivity.
Defined.

(** Witness for X16: Fe2O3 classified as oxide. *)
Lemma gas_precomputed_type_witness :
  GasCorrection.get_correction (GasCorrection.__init__ config true)
    fe2o3_classified
  = Ok (match OxideCorrections config !! "oxide" with
        | Some rate => rate * comp_get comp_Fe2O3 "O"
        | None => 0
        end).
Proof.
  apply (gas_precomputed_type (GasCorrection.__init__ config true)
           fe2o3_classified "oxide"); try reflexivity.
  discriminate.
Defined.

(** ** AqueousCorrection and correct_entry *)

Section AqueousGeneral.

Implicit Types (self : AqueousCorrection.t) (entry : Entry).
Implicit Types (l : loc) (σ : Store).

Lemma py_min_zero (a b : Qc) :
  (0 ≤ a)%Qc → (0 ≤ b)%Qc → a = 0 ∨ b = 0 → py_min a b = 0.
Proof.
  intros Ha Hb Hzero. unfold py_min. case_decide as Hlt.
  - destruct Hzero as [-> | ->]; [|done].
    by apply Qcle_not_lt in Hb.
  - destruct Hzero as [-> | ->]; [done|].
    apply Qcle_antisym; [by apply Qcnot_lt_le|done].
Qed.

Lemma hydration_term_zero (comp : Composition) :
  (0 ≤ comp_get comp "H")%Qc → (0 ≤ comp_get comp "O")%Qc →
  comp_get comp "H" = 0 ∨ comp_get comp "O" = 0 →
  AqueousCorrection.hydration_term comp = 0.
Proof.
  intros HH HO Hzero. unfold AqueousCorrection.hydration_term.
  rewrite py_min_zero; [ring| |done|].
  - unfold Qcdiv. apply Qcmult_nonneg_nonneg; [done|]. by_evaluation.
  - destruct Hzero as [-> | ->]; [left|by right].
    unfold Qcdiv. ring.
Qed.

(** X17.  A compound without an aqueous reference energy that lacks
    hydrogen or lacks oxygen (amounts being nonnegative) gets no aqueous
    correction. *)
Theorem aqueous_untouched self entry :
  AqueousCorrection.cpd_energies self
    !! reduced_formula (composition entry) = None →
  (0 ≤ comp_get (composition entry) "H")%Qc →
  (0 ≤ comp_get (composition entry) "O")%Qc →
  comp_get (composition entry) "H" = 0 ∨
  comp_get (composition entry) "O" = 0 →
  AqueousCorrection.get_correction self entry = Ok 0.
Proof.
  intros Hcpd HH HO Hzero. unfold AqueousCorrection.get_correction.
  rewrite Hcpd. case_decide; [done|].
  rewrite hydration_term_zero by done. by rewrite Qcplus_0_l.
Qed.

Lemma correct_entry_unfold `{CorrectionClass T} (c : T) l σ :
  correct_entry c l σ
  = match get_correction c (σ l) with
    | Ok val =>
        (Ok l, <[l := set_correction (σ l) (correction (σ l) + val)]> σ)
    | Raise err => (Raise err, σ)
    end.
Proof.
  unfold correct_entry, call_get_correction, mbind, M_bind, load, lift,
    store_correction, mret, M_ret.
  by destruct (get_correction c (σ l)).
Qed.

(** X18.  [correct_entry] with an aqueous correction, on water or on H2
    with no oxygen and a hydrogen amount that is not negative, when the
    reduced formula has an aqueous reference energy: the call returns the
    entry it was given and assigns one attribute, the entry's correction,
    which becomes the old correction plus (reference energy times number of
    atoms, minus the uncorrected energy, minus the old correction); every
    other entry object is as before. *)
Theorem correct_entry_aqueous_reference self l σ ref :
  let comp := composition (σ l) in
  AqueousCorrection.cpd_energies self !! reduced_formula comp = Some ref →
  reduced_formula comp = "H2O" ∨
  (reduced_formula comp = "H2" ∧ comp_get comp "O" = 0 ∧
   (0 ≤ comp_get comp "H")%Qc) →
  correct_entry self l σ
  = (Ok l,
     <[l := set_correction (σ l)
              (correction (σ l)
               + (ref * num_atoms comp - uncorrected_energy (σ l)
                  - correction (σ l)))]> σ).
Proof.
  intros comp Hcpd Hform. rewrite correct_entry_unfold.
  change (get_correction self (σ l))
    with (AqueousCorrection.get_correction self (σ l)).
  unfold AqueousCorrection.get_correction. fold comp. rewrite Hcpd.
  assert (reduced_formula comp ∈ ["H2"; "H2O"]) as Hin.
  { destruct Hform as [->|[-> _]]; set_solver. }
  cbn beta iota. rewrite (decide_True (P := _ ∈ _)) by done.
  destruct Hform as [Hw|(Hh & HO & HH)].
  - by rewrite decide_True by done.
  - rewrite decide_False by (rewrite Hh; discriminate).
    rewrite hydration_term_zero; [|done| |by right].
    + by rewrite Qcplus_0_r.
    + rewrite HO. by_evaluation.
Qed.

End AqueousGeneral.

(** Witness for X17: Fe2O3 has no hydrogen and no aqueous reference. *)
Lemma aqueous_untouched_witness :
  AqueousCorrection.get_correction (AqueousCorrection.__init__ config) fe2o3
  = Ok 0.
Proof.
  apply (aqueous_untouched (AqueousCorrection.__init__ config) fe2o3).
  - reflexivity.
  - by_evaluation.
  - by_evaluation.
  - left. reflexivity.
Defined.

(** Witness for X18: water, whose correction field was 0.5 before. *)
Lemma correct_entry_aqueous_reference_witness :
  correct_entry (AqueousCorrection.__init__ config) 0%nat
    (store_of (set_correction h2o (dec 5 10)))
  = (Ok 0%nat,
     <[0%nat := set_correction h2o
                  (dec 5 10
                   + (dec (-497) 100 * num_atoms comp_H2O
                      - uncorrected_energy h2o - dec 5 10))]>
       (store_of (set_correction h2o (dec 5 10)))).
Proof.
  apply (correct_entry_aqueous_reference (AqueousCorrection.__init__ config)
           0%nat (store_of (set_correction h2o (dec 5 10)))).
  - reflexivity.
  - left. reflexivity.
Defined.

(** ** Compatibility: what the breakdown holds and how exceptions travel *)

Section SchemeGeneral.

Implicit Types (self : Compatibility.t) (cs : list Correction).
Implicit Types (d : gmap string Qc) (e : Entry) (x : Qc).
Implicit Types (l : loc) (entries : list loc) (σ : Store).

Lemma breakdown_entries cs e vals d0 :
  Forall2 (λ c v, get_correction c e = Ok v) cs vals →
  NoDup (to_str <$> cs) →
  (∀ c, c ∈ cs → d0 !! to_str c = None) →
  ∃ d, breakdown cs e d0 = Ok d ∧
       (∀ k, k ∉ to_str <$> cs → d !! k = d0 !! k) ∧
       Forall2 (λ c v, d !! to_str c
                       = if decide (v = 0) then None else Some v) cs vals.
Proof.
  intros Hvals. revert d0.
  induction Hvals as [|c v cs vals Hc _ IH]; intros d0 Hnd Hfresh.
  { exists d0. by split_and!. }
  rewrite fmap_cons in Hnd. apply NoDup_cons in Hnd as [Hc_new Hnd].
  rewrite breakdown_cons, Hc.
  set (d1 := if decide (v ≠ 0) then <[to_str c := v]> d0 else d0).
  destruct (IH d1 Hnd) as (d & Hd & Hother & Hcs).
  { intros c' Hc'. unfold d1. case_decide; [|apply Hfresh; by right].
    rewrite lookup_insert_ne; [apply Hfresh; by right|].
    intros Heq. apply Hc_new. rewrite Heq. by apply list_elem_of_fmap_2. }
  exists d. split_and!; [done| |].
  - intros k [Hk Hks]%not_elem_of_cons. rewrite (Hother k Hks). unfold d1.
    case_decide; [|done]. by rewrite lookup_insert_ne.
  - constructor; [|done]. rewrite (Hother _ Hc_new). unfold d1.
    destruct (decide (v = 0)) as [->|Hv].
    + rewrite decide_False by (by intros []). apply Hfresh. by left.
    + rewrite decide_True by done. by rewrite lookup_insert_eq.
Qed.

(** X19.  When every correction returns a value and the names are pairwise
    distinct, the breakdown maps the name of each correction with a nonzero
    value to that value, has no entry for a correction whose value is 0,
    and has no other key; the store of entry objects is unchanged. *)
Theorem get_corrections_dict_content self l σ vals :
  Forall2 (λ c v, get_correction c (σ l) = Ok v)
          (Compatibility.corrections self) vals →
  NoDup (to_str <$> Compatibility.corrections self) →
  ∃ d, Compatibility.get_corrections_dict self l σ = (Ok d, σ) ∧
       Forall2 (λ c v, d !! to_str c
                       = if decide (v = 0) then None else Some v)
               (Compatibility.corrections self) vals ∧
       ∀ k, k ∉ to_str <$> Compatibility.corrections self → d !! k = None.
Proof.
  intros Hvals Hnd. rewrite get_corrections_dict_breakdown.
  destruct (breakdown_entries _ _ _ ∅ Hvals Hnd) as (d & -> & Hother & Hcs).
  { intros. apply lookup_empty. }
  exists d. split_and!; [done..|].
  intros k Hk. by rewrite (Hother k Hk), lookup_empty.
Qed.

(** X20.  [get_corrections_dict] catches nothing: the exception of the
    first correction that raises, [CompatibilityError] included, reaches
    the caller, and the store of entry objects is unchanged. *)
Theorem get_corrections_dict_propagates self l σ
    (pre : list Correction) (c : Correction) (post : list Correction) err :
  Compatibility.corrections self = (pre ++ c :: post)%list →
  Forall (λ c', ∃ v, get_correction c' (σ l) = Ok v) pre →
  get_correction c (σ l) = Raise err →
  Compatibility.get_corrections_dict self l σ = (Raise err, σ).
Proof.
  intros Hcs Hpre Hc. rewrite get_corrections_dict_breakdown, Hcs.
  by rewrite (breakdown_raise _ _ _ _ _ _ Hpre Hc).
Qed.

(** X21.  [process_entry] catches [CompatibilityError] only: when the first
    correction that raises raises another exception, [process_entry] raises
    it and leaves the entry as it was. *)
Theorem process_entry_propagates self l σ
    (pre : list Correction) (c : Correction) (post : list Correction) err :
  Compatibility.corrections self = (pre ++ c :: post)%list →
  Forall (λ c', ∃ v, get_correction c' (σ l) = Ok v) pre →
  get_correction c (σ l) = Raise err →
  (∀ msg, err ≠ CompatibilityError msg) →
  Compatibility.process_entry self l σ = (Raise err, σ).
Proof.
  intros Hcs Hpre Hc Herr. rewrite process_entry_unfold, Hcs.
  rewrite (breakdown_raise _ _ _ _ _ _ Hpre Hc).
  destruct err; [by destruct (Herr msg)|done..].
Qed.

(** X22.  [process_entry] assigns nothing but the correction field of the
    entry it is given: every other entry object is left as it was, and the
    entry itself keeps its composition, energy, parameters, data and
    structure. *)
Theorem process_entry_frame self l σ :
  (∀ l', l' ≠ l → (Compatibility.process_entry self l σ).2 l' = σ l') ∧
  ∃ x, (Compatibility.process_entry self l σ).2 l = set_correction (σ l) x.
Proof.
  rewrite process_entry_unfold.
  destruct (breakdown _ _ _) as [d|[]]; simpl; split;
    try (intros l' Hne; by rewrite ?fn_lookup_insert_ne);
    try (exists (correction (σ l)); by rewrite set_correction_id).
  eexists. by rewrite fn_lookup_insert.
Qed.

Lemma verdict_agree self l σ σi x :
  σi l = set_correction (σ l) x →
  (Compatibility.process_entry self l σi).1
  = (Compatibility.process_entry self l σ).1.
Proof.
  intros Hx. rewrite !process_entry_unfold.
  pose proof (breakdown_raised (Compatibility.corrections self)
                (σ l) x ∅ ∅) as Hr.
  rewrite <-Hx in Hr.
  destruct (breakdown _ (σi l) ∅) as [di|erri];
    destruct (breakdown _ (σ l) ∅) as [d0|err0]; simplify_eq/=; [done|].
  by destruct err0.
Qed.

Lemma agree_step self l σ σi :
  (∀ l', ∃ x, σi l' = set_correction (σ l') x) →
  ∀ l', ∃ x, (Compatibility.process_entry self l σi).2 l'
             = set_correction (σ l') x.
Proof.
  intros Hagree l'.
  destruct (process_entry_frame self l σi) as [Hother [y Hy]].
  destruct (decide (l' = l)) as [->|Hne].
  - destruct (Hagree l) as [x Hx]. exists y. by rewrite Hy, Hx.
  - rewrite (Hother l' Hne). apply Hagree.
Qed.

Lemma mapM_result_cons {A B} (f : A → result B) (a : A) (la : list A) :
  mapM f (a :: la)
  = match f a with
    | Ok b => match mapM f la with
              | Ok lb => Ok (b :: lb)
              | Raise err => Raise err
              end
    | Raise err => Raise err
    end.
Proof.
  simpl. unfold mbind, result_bind. destruct (f a) as [b|err]; [|done].
  by destruct (mapM (M:=result) f la).
Qed.

Lemma mapM_verdicts self σ entries :
  ∀ σi : Store,
    (∀ l, ∃ x, σi l = set_correction (σ l) x) →
    (mapM (M:=M) (Compatibility.process_entry self) entries σi).1
    = mapM (λ l, (Compatibility.process_entry self l σ).1) entries.
Proof.
  induction entries as [|l ls IH]; intros σi Hagree; [done|].
  rewrite mapM_cons_run, mapM_result_cons.
  destruct (Hagree l) as [x Hx].
  rewrite <-(verdict_agree self l σ σi x Hx).
  pose proof (agree_step self l σ σi Hagree) as Hagree1.
  destruct (Compatibility.process_entry self l σi) as [[o|err] σ1];
    simpl in *; [|done].
  rewrite <-(IH σ1 Hagree1).
  by destruct (mapM (M:=M) (Compatibility.process_entry self) ls σ1)
    as [[rs|err] σ2].
Qed.

(** X23.  What a batch returns or raises is decided entry by entry, by what
    [process_entry] alone returns or raises on each entry of the input, in
    order; the first exception ends the batch.  This holds also when an
    entry object occurs more than once. *)
Theorem process_entries_outcome self entries σ :
  (Compatibility.process_entries self entries σ).1
  = rs ← mapM (λ l, (Compatibility.process_entry self l σ).1) entries;
    Ok (omap id rs).
Proof.
  unfold Compatibility.process_entries.
  rewrite <-(mapM_verdicts self σ entries σ).
  - unfold mbind at 1, M_bind.
    by destruct (mapM (M:=M) (Compatibility.process_entry self) entries σ)
      as [[rs|err] σ'].
  - intros l. exists (correction (σ l)). by rewrite set_correction_id.
Qed.

(** Without an [AqueousCorrection], no correction reads the correction
    field. *)
Lemma breakdown_ignores_correction cs e x d :
  Forall (λ c, is_aqueous c = false) cs →
  breakdown cs (set_correction e x) d = breakdown cs e d.
Proof.
  intros Hcs. revert d. induction Hcs as [|c cs Hc _ IH]; intros d; [done|].
  rewrite !breakdown_cons.
  assert (get_correction c (set_correction e x) = get_correction c e) as ->.
  { by destruct c. }
  destruct (get_correction c e); [apply IH|done].
Qed.

Lemma no_aqueous_step self l σ σi :
  Forall (λ c, is_aqueous c = false) (Compatibility.corrections self) →
  σi l = σ l ∨ σi l = (Compatibility.process_entry self l σ).2 l →
  (Compatibility.process_entry self l σi).2 l
  = (Compatibility.process_entry self l σ).2 l.
Proof.
  intros Hcs Hl.
  assert (∃ x, σi l = set_correction (σ l) x) as [x Hx].
  { destruct Hl as [->| ->].
    - exists (correction (σ l)). by rewrite set_correction_id.
    - apply process_entry_frame. }
  rewrite (process_entry_unfold self l σi), Hx.
  rewrite breakdown_ignores_correction by done.
  rewrite process_entry_unfold in Hl |- *.
  destruct (breakdown _ (σ l) ∅) as [d|[]]; simpl in *;
    rewrite ?fn_lookup_insert; try done; by destruct Hl.
Qed.

Lemma mapM_no_aqueous self σ entries :
  Forall (λ c, is_aqueous c = false) (Compatibility.corrections self) →
  ∀ (σi : Store) rs (σ' : Store),
    (∀ l, σi l = σ l ∨ σi l = (Compatibility.process_entry self l σ).2 l) →
    mapM (M:=M) (Compatibility.process_entry self) entries σi = (Ok rs, σ') →
    (∀ l, l ∉ entries → σ' l = σi l) ∧
    (∀ l, l ∈ entries → σ' l = (Compatibility.process_entry self l σ).2 l).
Proof.
  intros Hcs. induction entries as [|l ls IH]; intros σi rs σ' Hinv Hrun.
  { injection Hrun as <- <-. split; [done|].
    intros l Hl. by apply elem_of_nil in Hl. }
  rewrite mapM_cons_run in Hrun.
  pose proof (no_aqueous_step self l σ σi Hcs (Hinv l)) as Hstep.
  destruct (process_entry_frame self l σi) as [Hother _].
  destruct (Compatibility.process_entry self l σi) as [[o|err] σ1];
    [|done]. simpl in *.
  destruct (mapM (M:=M) (Compatibility.process_entry self) ls σ1)
    as [[rs'|err] σ2] eqn:Hrest; [|done].
  injection Hrun as <- <-.
  destruct (IH σ1 rs' σ2) as [Hframe Hset]; [|done|].
  { intros l'. destruct (decide (l' = l)) as [->|Hne]; [by right|].
    rewrite (Hother l' Hne). apply Hinv. }
  split.
  - intros l' [Hne Hl']%not_elem_of_cons.
    by rewrite (Hframe l' Hl'), (Hother l' Hne).
  - intros l' Hl'. destruct (decide (l' ∈ ls)) as [Hin|Hnin]; [by apply Hset|].
    apply elem_of_cons in Hl' as [->|?]; [|done].
    by rewrite (Hframe l Hnin).
Qed.

(** X24.  With a scheme that has no [AqueousCorrection], a batch leaves
    every entry of the input exactly as [process_entry] alone leaves it,
    also when an entry object occurs more than once. *)
Theorem process_entries_no_aqueous self entries σ out (σ' : Store) :
  Forall (λ c, is_aqueous c = false) (Compatibility.corrections self) →
  Compatibility.process_entries self entries σ = (Ok out, σ') →
  ∀ l, l ∈ entries → σ' l = (Compatibility.process_entry self l σ).2 l.
Proof.
  intros Hcs Hrun. unfold Compatibility.process_entries in Hrun.
  unfold mbind, M_bind in Hrun.
  destruct (mapM (M:=M) (Compatibility.process_entry self) entries σ)
    as [[rs|err] σ1] eqn:Hmap; [|done].
  injection Hrun as _ <-.
  eapply mapM_no_aqueous; [done| |done]. intros l. by left.
Qed.

(** X25.  With a scheme that has no [AqueousCorrection], processing an
    entry a second time changes nothing: the second call returns what the
    first returned and leaves every entry object as the first left it. *)
Theorem process_entry_twice_no_aqueous self l σ :
  Forall (λ c, is_aqueous c = false) (Compatibility.corrections self) →
  let first := Compatibility.process_entry self l σ in
  let second := Compatibility.process_entry self l first.2 in
  second.1 = first.1 ∧ ∀ l', second.2 l' = first.2 l'.
Proof.
  intros Hcs first second. subst first second. split.
  - destruct (process_entry_frame self l σ) as [_ [x Hx]].
    by apply (verdict_agree self l σ _ x).
  - intros l'. destruct (decide (l' = l)) as [->|Hne].
    + apply no_aqueous_step; [done|]. by right.
    + destruct (process_entry_frame self l
                  (Compatibility.process_entry self l σ).2) as [Hother _].
      by apply Hother.
Qed.

End SchemeGeneral.

(** ** The named schemes *)

Section NamedSchemes.

Implicit Types (fp : Config) (i_s : InputSet) (ct : string) (cp : bool).
Implicit Types (self : Compatibility.t) (l : loc) (σ : Store).

Lemma string_app_cons (c : ascii) (a b : string) :
  String c a ++ b = String c (a ++ b).
Proof. reflexivity. Qed.

Lemma string_length_app (a b : string) :
  String.length (a ++ b) = (String.length a + String.length b)%nat.
Proof.
  induction a as [|c a IH]; [done|].
  rewrite string_app_cons. simpl. by rewrite IH.
Qed.

Lemma string_app_assoc (a b c : string) : (a ++ b) ++ c = a ++ (b ++ c).
Proof.
  induction a as [|x a IH]; [done|].
  rewrite !string_app_cons. by rewrite IH.
Qed.

Lemma string_app_suffix_inj (a b s t : string) :
  String.length s = String.length t → a ++ s = b ++ t → s = t.
Proof.
  intros Hlen. revert b. induction a as [|x a IH]; intros b Heq.
  - destruct b as [|y b]; [done|]. exfalso.
    apply (f_equal String.length) in Heq.
    change (EmptyString ++ s) with s in Heq.
    rewrite string_length_app in Heq. simpl in Heq. lia.
  - destruct b as [|y b].
    + exfalso. apply (f_equal String.length) in Heq.
      change (EmptyString ++ t) with t in Heq.
      rewrite string_length_app in Heq. simpl in Heq. lia.
    + rewrite !string_app_cons in Heq. injection Heq as _ Heq.
      by apply (IH b).
Qed.

(** Two names with different endings of the same length differ. *)
Lemma names_differ (a b pa pb s t : string) :
  String.length s = String.length t → s ≠ t →
  a ++ (pa ++ s) ≠ b ++ (pb ++ t).
Proof.
  intros Hlen Hne Heq. rewrite <-!string_app_assoc in Heq.
  by apply string_app_suffix_inj in Heq.
Qed.

Lemma init_ok fp i_s ct u :
  UCorrection.__init__ fp i_s ct = Ok u →
  UCorrection.name u = Name fp ∧
  (UCorrection.compat_type u = "GGA" ∨
   UCorrection.compat_type u = "Advanced").
Proof.
  unfold UCorrection.__init__. case_decide as Hct; [|done].
  destruct (if decide (ct = "Advanced") then _ else _) as [tables|];
    [|done].
  cbn. intros [= <-]. split; [done|]. cbn.
  apply elem_of_cons in Hct as [?|Hct]; [by left|].
  apply list_elem_of_singleton in Hct. by right.
Qed.

Lemma standard_corrections_ok fp i_s ct cp cs :
  standard_corrections fp i_s ct cp = Ok cs →
  ∃ u, UCorrection.__init__ fp i_s ct = Ok u ∧
       cs = [Potcar (PotcarCorrection.__init__ i_s);
             Gas (GasCorrection.__init__ fp cp); U u].
Proof.
  unfold standard_corrections.
  destruct (UCorrection.__init__ fp i_s ct) as [u|]; [|done].
  cbn. intros [= <-]. by exists u.
Qed.

Lemma scheme_names_distinct fp i_s cp u :
  UCorrection.name u = Name fp →
  UCorrection.compat_type u = "GGA" ∨
  UCorrection.compat_type u = "Advanced" →
  NoDup (to_str <$> [Potcar (PotcarCorrection.__init__ i_s);
                     Gas (GasCorrection.__init__ fp cp); U u;
                     Aqueous (AqueousCorrection.__init__ fp)]).
Proof.
  intros Hname Hct.
  change (NoDup [is_name i_s ++ " Potcar Correction";
                 Name fp ++ " Gas Correction";
                 UCorrection.name u ++ " " ++ UCorrection.compat_type u
                   ++ " Correction";
                 Name fp ++ " Aqueous Correction"]).
  rewrite Hname.
  assert (∀ a b, a ++ " Potcar Correction" ≠ b ++ " Gas Correction") as H12.
  { intros a b. by apply (names_differ a b " Po" EmptyString
                            "tcar Correction" " Gas Correction"). }
  assert (∀ a b, a ++ " Potcar Correction" ≠ b ++ " Aqueous Correction")
    as H14.
  { intros a b. by apply (names_differ a b " Po" " Aqu"
                            "tcar Correction" "eous Correction"). }
  assert (∀ a b, a ++ " Gas Correction" ≠ b ++ " Aqueous Correction") as H24.
  { intros a b. by apply (names_differ a b EmptyString " Aqu"
                            " Gas Correction" "eous Correction"). }
  destruct Hct as [-> | ->].
  - assert (∀ a b, a ++ " Potcar Correction"
                   ≠ b ++ " " ++ "GGA" ++ " Correction") as H13.
    { intros a b. by apply (names_differ a b " Po" EmptyString
                              "tcar Correction" " GGA Correction"). }
    assert (∀ a b, a ++ " Gas Correction"
                   ≠ b ++ " " ++ "GGA" ++ " Correction") as H23.
    { intros a b. by apply (names_differ a b EmptyString EmptyString
                              " Gas Correction" " GGA Correction"). }
    assert (∀ a b, a ++ " " ++ "GGA" ++ " Correction"
                   ≠ b ++ " Aqueous Correction") as H34.
    { intros a b. by apply (names_differ a b EmptyString " Aqu"
                              " GGA Correction" "eous Correction"). }
    repeat (apply NoDup_cons; split;
            [rewrite ?not_elem_of_cons; split_and?; auto using not_elem_of_nil|]).
    apply NoDup_nil_2.
  - assert (∀ a b, a ++ " Potcar Correction"
                   ≠ b ++ " " ++ "Advanced" ++ " Correction") as H13.
    { intros a b. by apply (names_differ a b " Po" " Adva"
                              "tcar Correction" "nced Correction"). }
    assert (∀ a b, a ++ " Gas Correction"
                   ≠ b ++ " " ++ "Advanced" ++ " Correction") as H23.
    { intros a b. by apply (names_differ a b EmptyString " Adva"
                              " Gas Correction" "nced Correction"). }
    assert (∀ a b, a ++ " " ++ "Advanced" ++ " Correction"
                   ≠ b ++ " Aqueous Correction") as H34.
    { intros a b. by apply (names_differ a b " Adva" " Aqu"
                              "nced Correction" "eous Correction"). }
    repeat (apply NoDup_cons; split;
            [rewrite ?not_elem_of_cons; split_and?; auto using not_elem_of_nil|]).
    apply NoDup_nil_2.
Qed.

Lemma aqueous_preset_ok fp i_s ct cp self :
  MaterialsProjectAqueousCompatibility fp i_s ct cp = Ok self ∨
  MITAqueousCompatibility fp i_s ct cp = Ok self →
  ∃ u, UCorrection.__init__ fp i_s ct = Ok u ∧
       Compatibility.corrections self
       = [Potcar (PotcarCorrection.__init__ i_s);
          Gas (GasCorrection.__init__ fp cp); U u;
          Aqueous (AqueousCorrection.__init__ fp)].
Proof.
  unfold MaterialsProjectAqueousCompatibility, MITAqueousCompatibility.
  intros [Hs|Hs];
    (destruct (standard_corrections fp i_s ct cp) as [cs|] eqn:Hcs; [|done];
     apply standard_corrections_ok in Hcs as (u & Hu & ->);
     cbn in Hs; injection Hs as <-; by exists u).
Qed.

Lemma standard_preset_ok fp i_s ct cp self :
  MaterialsProjectCompatibility fp i_s ct cp = Ok self ∨
  MITCompatibility fp i_s ct cp = Ok self →
  ∃ u, UCorrection.__init__ fp i_s ct = Ok u ∧
       Compatibility.corrections self
       = [Potcar (PotcarCorrection.__init__ i_s);
          Gas (GasCorrection.__init__ fp cp); U u].
Proof.
  unfold MaterialsProjectCompatibility, MITCompatibility.
  intros [Hs|Hs];
    (destruct (standard_corrections fp i_s ct cp) as [cs|] eqn:Hcs; [|done];
     apply standard_corrections_ok in Hcs as (u & Hu & ->);
     cbn in Hs; injection Hs as <-; by exists u).
Qed.

Lemma named_scheme_NoDup fp i_s ct cp self :
  MaterialsProjectCompatibility fp i_s ct cp = Ok self ∨
  MITCompatibility fp i_s ct cp = Ok self ∨
  MaterialsProjectAqueousCompatibility fp i_s ct cp = Ok self ∨
  MITAqueousCompatibility fp i_s ct cp = Ok self →
  NoDup (to_str <$> Compatibility.corrections self).
Proof.
  intros Hs.
  assert ((MaterialsProjectCompatibility fp i_s ct cp = Ok self ∨
           MITCompatibility fp i_s ct cp = Ok self) ∨
          (MaterialsProjectAqueousCompatibility fp i_s ct cp = Ok self ∨
           MITAqueousCompatibility fp i_s ct cp = Ok self)) as [Hstd|Haq]
    by tauto.
  - apply standard_preset_ok in Hstd as (u & Hu & ->).
    apply init_ok in Hu as [Hname Hct].
    pose proof (scheme_names_distinct fp i_s cp u Hname Hct) as Hnd.
    change (NoDup ((to_str <$> [Potcar (PotcarCorrection.__init__ i_s);
                                Gas (GasCorrection.__init__ fp cp); U u])
                   ++ [to_str (Aqueous (AqueousCorrection.__init__ fp))]))
      in Hnd.
    by apply NoDup_app in Hnd as [Hnd _].
  - apply aqueous_preset_ok in Haq as (u & Hu & ->).
    apply init_ok in Hu as [Hname Hct].
    by apply scheme_names_distinct.
Qed.

(** X26.  In each of the four named schemes the corrections have pairwise
    distinct names, whatever the name of the input set and the name in the
    configuration file are; so an entry on which every correction returns a
    value comes back with its correction field set to the sum of all the
    values. *)
Theorem named_scheme_process_entry fp i_s ct cp self :
  MaterialsProjectCompatibility fp i_s ct cp = Ok self ∨
  MITCompatibility fp i_s ct cp = Ok self ∨
  MaterialsProjectAqueousCompatibility fp i_s ct cp = Ok self ∨
  MITAqueousCompatibility fp i_s ct cp = Ok self →
  NoDup (to_str <$> Compatibility.corrections self) ∧
  ∀ l σ vals,
    Forall2 (λ c v, get_correction c (σ l) = Ok v)
            (Compatibility.corrections self) vals →
    Compatibility.process_entry self l σ
    = (Ok (Some l), <[l := set_correction (σ l) (total vals)]> σ).
Proof.
  intros Hnd%named_scheme_NoDup. split; [done|].
  intros l σ vals Hvals. rewrite process_entry_unfold.
  destruct (breakdown_sum _ _ _ ∅ Hvals Hnd) as (d' & -> & Hsum).
  { intros. apply lookup_empty. }
  rewrite Hsum, sum_values_empty. do 3 f_equal. ring.
Qed.

End NamedSchemes.


(** Witness for X19: H2 with the aqueous scheme; the POTCAR and U
    corrections return 0 and have no entry. *)
Lemma get_corrections_dict_content_witness :
  ∃ d, Compatibility.get_corrections_dict aqueous_scheme 0%nat (store_of h2)
       = (Ok d, store_of h2) ∧
       Forall2 (λ c v, d !! to_str c
                       = if decide (v = 0) then None else Some v)
               (Compatibility.corrections aqueous_scheme)
               [0; dec 25 100; 0; dec (-45) 100] ∧
       ∀ k, k ∉ to_str <$> Compatibility.corrections aqueous_scheme →
            d !! k = None.
Proof.
  apply (get_corrections_dict_content aqueous_scheme 0%nat (store_of h2)).
  - repeat constructor; by_evaluation.
  - by_evaluation.
Defined.

(** Witness for X20: the GGA run of Fe2O3, which the U correction of the
    aqueous scheme refuses. *)
Lemma get_corrections_dict_propagates_witness :
  Compatibility.get_corrections_dict aqueous_scheme 0%nat (store_of fe2o3)
  = (Raise (CompatibilityError "Invalid U value on Fe"), store_of fe2o3).
Proof.
  apply (get_corrections_dict_propagates aqueous_scheme 0%nat
           (store_of fe2o3)
           [Potcar (PotcarCorrection.__init__ input_set);
            Gas (GasCorrection.__init__ config true)]
           (U u_advanced)
           [Aqueous (AqueousCorrection.__init__ config)]).
  - reflexivity.
  - repeat constructor.
    + exists 0. by_evaluation.
    + exists (dec (-198) 100). by_evaluation.
  - by_evaluation.
Defined.

(** Witness for X21: iron recorded without parameters; the POTCAR
    correction raises [ValueError]. *)
Lemma process_entry_propagates_witness :
  Compatibility.process_entry aqueous_scheme 0%nat (store_of fe)
  = (Raise (ValueError PotcarCorrection.missing_key_msg), store_of fe).
Proof.
  apply (process_entry_propagates aqueous_scheme 0%nat (store_of fe) []
           (Potcar (PotcarCorrection.__init__ input_set))
           [Gas (GasCorrection.__init__ config true); U u_advanced;
            Aqueous (AqueousCorrection.__init__ config)]).
  - reflexivity.
  - constructor.
  - reflexivity.
  - discriminate.
Defined.

(** Witness for X22: processing H2 at reference 0 leaves the entry at
    reference 1 as it was. *)
Lemma process_entry_frame_witness :
  (Compatibility.process_entry aqueous_scheme 0%nat store_h2_fe2o3).2 1%nat
  = store_h2_fe2o3 1%nat.
Proof.
  apply (process_entry_frame aqueous_scheme 0%nat store_h2_fe2o3).
  discriminate.
Defined.

(** Witness for X24: H2 listed twice, with the scheme that has no aqueous
    correction. *)
Lemma process_entries_no_aqueous_witness :
  (Compatibility.process_entries standard_scheme [0%nat; 0%nat]
     (store_of h2)).2 0%nat
  = (Compatibility.process_entry standard_scheme 0%nat (store_of h2)).2 0%nat.
Proof.
  apply (process_entries_no_aqueous standard_scheme [0%nat; 0%nat]
           (store_of h2) [0%nat; 0%nat]).
  - repeat constructor.
  - apply injective_projections; [by_evaluation|reflexivity].
  - by left.
Defined.

(** Witness for X25: H2 with the scheme that has no aqueous correction. *)
Lemma process_entry_twice_no_aqueous_witness :
  let first := Compatibility.process_entry standard_scheme 0%nat (store_of h2) in
  let second := Compatibility.process_entry standard_scheme 0%nat first.2 in
  second.1 = first.1 ∧ ∀ l', second.2 l' = first.2 l'.
Proof.
  apply (process_entry_twice_no_aqueous standard_scheme 0%nat (store_of h2)).
  repeat constructor.
Defined.

(** Witness for X26: the aqueous scheme of the sample file, on H2. *)
Lemma named_scheme_process_entry_witness :
  NoDup (to_str <$> Compatibility.corrections aqueous_scheme) ∧
  Compatibility.process_entry aqueous_scheme 0%nat (store_of h2)
  = (Ok (Some 0%nat),
     <[0%nat := set_correction h2 (total [0; dec 25 100; 0; dec (-45) 100])]>
       (store_of h2)).
Proof.
  destruct (named_scheme_process_entry config input_set "Advanced" true
              aqueous_scheme) as [Hnd Hsum].
  { do 2 right. left. reflexivity. }
  split; [exact Hnd|].
  apply (Hsum 0%nat (store_of h2)).
  repeat constructor; by_evaluation.
Defined.
